(** * Energy dashboard: ingestion and anomaly-scoring pipeline

  A shallow embedding of the TypeScript sources
  - [frontend/src/types/index.ts]
  - [frontend/src/utils/anomalyDetection.ts]
  - [frontend/src/utils/historicalData.ts]
  - [frontend/src/context/EnergyContext.tsx]
  - [frontend/src/hooks/useWebSocket.ts]

  A JavaScript [number] is an IEEE-754 binary64 value; it is modelled by
  Rocq's primitive [float], which is the same format with the same
  round-to-nearest-even arithmetic.  A [Record<string, _>] or [Map<string, _>]
  used as a dictionary is a [gmap string _]; arrays are lists. *)

From Stdlib Require Import ZArith List Bool Lia Floats.
From stdpp Require Import gmap strings list fin_maps.

(* A decimal literal such as 0.3 denotes the nearest binary64 value, exactly
 as the same literal does in the TypeScript source. *)
Set Warnings "-inexact-float".

(** ** JavaScript numbers *)

Module Number.

Local Open Scope float_scope.

(** [a > b] and [a >= b]; PrimFloat only has the two other directions. *)
Definition gtb (a b : float) : bool := b <? a.
Definition geb (a b : float) : bool := b <=? a.

(** [Math.min(a, b)] and [Math.max(a, b)] (ECMA-262 21.3.2.24/25): NaN if
    either argument is NaN, and -0 is smaller than +0. *)
Definition is_neg_zero (a : float) : bool :=
  match Prim2SF a with S754_zero true => true | _ => false end.

Definition min2 (a b : float) : float :=
  if is_nan a then a
  else if is_nan b then b
  else if b <? a then b
  else if a <? b then a
  else if is_neg_zero b then b else a.

Definition max2 (a b : float) : float :=
  if is_nan a then a
  else if is_nan b then b
  else if a <? b then b
  else if b <? a then a
  else if is_neg_zero a then b else a.

(** [Math.min] and [Math.max] applied to the argument list [xs]: the fold
    starts from [+Infinity], respectively [-Infinity]. *)
Definition Math_min (xs : list float) : float := fold_left min2 xs infinity.
Definition Math_max (xs : list float) : float := fold_left max2 xs neg_infinity.

(** The spread call [f(...xs)].  An engine accepts only so many arguments
    in one call and throws a RangeError beyond that; [limit] is that number,
    which differs from engine to engine.  [None] is the throw. *)
Definition spread {A} (limit : nat) (f : list float → A) (xs : list float)
    : option A :=
  if Nat.ltb limit (length xs) then None else Some (f xs).

(** SameValueZero (ECMA-262 7.2.11): [===], except that NaN is the same
    value as NaN; +0 and -0 are the same value. *)
Definition sameValueZero (a b : float) : bool :=
  (a =? b) || (is_nan a && is_nan b).

(** An array length as a number. *)
Definition of_length (n : nat) : float := of_uint63 (Uint63.of_Z (Z.of_nat n)).

End Number.

Notation "a >? b" := (Number.gtb a b) (at level 70, no associativity) : float_scope.
Notation "a >=? b" := (Number.geb a b) (at level 70, no associativity) : float_scope.

(** ** [types/index.ts] *)

Module EnergyReading.
Record t : Type := mk {
  timestamp : string;
  zoneId : string;
  zoneName : string;
  energyKw : float;
  temperature : float;
  equipmentCount : float
}.
End EnergyReading.

Module AnomalyType.
Inductive t : Type := spike | drop | flatline.
End AnomalyType.

Inductive AnomalySeverity : Type := warning | critical.

Module Anomaly.
Record t : Type := mk {
  id : string;
  type : AnomalyType.t;
  zoneId : string;
  zoneName : string;
  timestamp : string;
  value : float;
  threshold : float;
  severity : AnomalySeverity
}.
End Anomaly.

Inductive ConnectionStatus : Type := CONNECTING | CONNECTED | DISCONNECTED | ERROR.

(** ** [utils/anomalyDetection.ts] *)

Module AnomalyDetection.

Local Open Scope float_scope.
Import EnergyReading.

Record ZoneRange : Type := { min : float; max : float }.

(** Zone expected ranges (from zones-config.json). *)
Definition ZONE_RANGES : gmap string ZoneRange :=
  list_to_map
    [ ("assembly-1"%string, {| min := 220; max := 280 |});
      ("paint-shop"%string, {| min := 150; max := 200 |});
      ("stamping-press"%string, {| min := 300; max := 400 |});
      ("quality-control"%string, {| min := 50; max := 80 |});
      ("warehouse"%string, {| min := 20; max := 40 |}) ].

(** The property names that every object literal inherits from
    [Object.prototype] (ECMA-262 20.1.3 and B.2.2). *)
Definition Object_prototype_keys : list string :=
  [ "constructor"; "hasOwnProperty"; "isPrototypeOf"; "propertyIsEnumerable";
    "toLocaleString"; "toString"; "valueOf"; "__proto__";
    "__defineGetter__"; "__defineSetter__"; "__lookupGetter__";
    "__lookupSetter__" ]%string.

(** [ZONE_RANGES[zoneId]].  An own property gives its range.  An inherited
    property gives a function or the prototype object: it is truthy, and its
    [min] and [max] are [undefined], which is NaN in every product the
    detector forms.  Any other name gives [undefined]. *)
Definition ZONE_RANGES_get (zoneId : string) : option ZoneRange :=
  match ZONE_RANGES !! zoneId with
  | Some range => Some range
  | None =>
      if bool_decide (zoneId ∈ Object_prototype_keys)
      then Some {| min := nan; max := nan |}
      else None
  end.

Definition calculateSeverity (value threshold criticalMultiplier : float)
  : AnomalySeverity :=
  if value >? threshold * criticalMultiplier then critical else warning.

Definition createAnomaly (reading : EnergyReading.t) (type : AnomalyType.t)
    (threshold : float) (severity : AnomalySeverity) : Anomaly.t :=
  {| Anomaly.id := (zoneId reading +:+ "-" +:+ timestamp reading)%string;
     Anomaly.type := type;
     Anomaly.zoneId := zoneId reading;
     Anomaly.zoneName := zoneName reading;
     Anomaly.timestamp := timestamp reading;
     Anomaly.value := energyKw reading;
     Anomaly.threshold := threshold;
     Anomaly.severity := severity |}.

(** The percent change of the pattern rule, [Math.abs((e - p) / p)]. *)
Definition percentChange (e p : float) : float := abs ((e - p) / p).

Definition detectAnomaly (reading : EnergyReading.t)
    (previousReading : option EnergyReading.t) : option Anomaly.t :=
  match ZONE_RANGES_get (zoneId reading) with
  | None => None
  | Some range =>
      let spikeThreshold := max range * 1.5 in
      let dropThreshold := min range * 0.5 in
      (* 1. threshold-based detection *)
      if energyKw reading >? spikeThreshold then
        Some (createAnomaly reading AnomalyType.spike spikeThreshold
                (calculateSeverity (energyKw reading) (max range) 2))
      else if energyKw reading <? dropThreshold then
        Some (createAnomaly reading AnomalyType.drop dropThreshold
                (if energyKw reading <? min range * 0.3 then critical else warning))
      else
        (* 2. pattern-based detection *)
        match previousReading with
        | None => None
        | Some previous =>
            if negb (String.eqb (zoneId previous) (zoneId reading)) then None
            else
              let pct := percentChange (energyKw reading) (energyKw previous) in
              if pct <=? 0.3 then None
              else
                Some (createAnomaly reading
                        (if energyKw reading >? energyKw previous
                         then AnomalyType.spike else AnomalyType.drop)
                        (energyKw previous)
                        (if pct >? 0.5 then critical else warning))
        end
  end.

End AnomalyDetection.

(** ** [context/EnergyContext.tsx] *)

Module EnergyContext.

Import EnergyReading.

(** Keep last 1500 points (supports 1000-point chart with buffer). *)
Definition MAX_READINGS_PER_ZONE : nat := 1500.
(** Keep last 50 anomalies. *)
Definition MAX_ANOMALIES : nat := 50.

(** The provider's state: the three [useState] cells and the
    [previousReadingsRef] cell. *)
Record State : Type := {
  latestReadings : gmap string EnergyReading.t;
  readings : gmap string (list EnergyReading.t);
  anomalies : list Anomaly.t;
  previousReadings : gmap string EnergyReading.t
}.

Definition initial : State :=
  {| latestReadings := ∅; readings := ∅; anomalies := []; previousReadings := ∅ |}.

(** [xs.slice(-n)]: the last [n] elements. *)
Definition slice_last {A} (n : nat) (xs : list A) : list A :=
  drop (length xs - n) xs.

(** [newReadings.shift()] when the window has outgrown its capacity. *)
Definition window_push (zoneReadings : list EnergyReading.t)
    (reading : EnergyReading.t) : list EnergyReading.t :=
  let newReadings := zoneReadings ++ [reading] in
  if Nat.ltb MAX_READINGS_PER_ZONE (length newReadings)
  then tail newReadings
  else newReadings.

(** One incoming WebSocket message.  The state updaters run in the order in
    which they are queued, each on the state left by the previous one. *)
Definition handleMessage (st : State) (reading : EnergyReading.t) : State :=
  let previousReading := previousReadings st !! zoneId reading in
  let anomaly := AnomalyDetection.detectAnomaly reading previousReading in
  {| anomalies :=
       match anomaly with
       | Some a => slice_last MAX_ANOMALIES (anomalies st ++ [a])
       | None => anomalies st
       end;
     previousReadings := <[zoneId reading := reading]> (previousReadings st);
     latestReadings := <[zoneId reading := reading]> (latestReadings st);
     readings :=
       let zoneReadings := default [] (readings st !! zoneId reading) in
       <[zoneId reading := window_push zoneReadings reading]> (readings st) |}.

(** The state after a sequence of messages, starting from the empty maps. *)
Definition ingest (msgs : list EnergyReading.t) : State :=
  fold_left handleMessage msgs initial.

(** A zone's history window, as the consumers read it. *)
Definition window (st : State) (zone : string) : list EnergyReading.t :=
  default [] (readings st !! zone).

(** The readings of [zone] among the messages, in arrival order: what has
    been appended to that zone's window. *)
Definition zone_history (msgs : list EnergyReading.t) (zone : string)
    : list EnergyReading.t :=
  filter (λ r, zoneId r = zone) msgs.

End EnergyContext.

(** ** [utils/historicalData.ts] *)

Module HistoricalBaseline.
Record t : Type := mk {
  zoneId : string;
  zoneName : string;
  avgEnergyKw : float;
  minEnergyKw : float;
  maxEnergyKw : float;
  dataPoints : nat
}.
End HistoricalBaseline.

Module HistoricalData.

Local Open Scope float_scope.
Import EnergyReading.

(** The grouping loop body: create the zone's array on first sight, then
    push the reading's energy value. *)
Definition group_step (zoneData : gmap string (list float))
    (reading : EnergyReading.t) : gmap string (list float) :=
  let zoneData :=
    match zoneData !! zoneId reading with
    | Some _ => zoneData
    | None => <[zoneId reading := []]> zoneData
    end in
  alter (λ values, values ++ [energyKw reading]) (zoneId reading) zoneData.

(** [historicalData.find(r => r.zoneId === zoneId)?.zoneName || zoneId];
    the empty string is falsy. *)
Definition zone_name_of (historicalData : list EnergyReading.t)
    (zone : string) : string :=
  match List.find (λ r, String.eqb (zoneId r) zone) historicalData with
  | Some r => if String.eqb (zoneName r) "" then zone else zoneName r
  | None => zone
  end.

(** The statistics of one zone, the body of the second loop.  The two
    spread calls [Math.min(...energyValues)] and [Math.max(...energyValues)]
    throw when the zone has more values than the engine takes as arguments. *)
Definition baseline_of (limit : nat) (historicalData : list EnergyReading.t)
    (zone : string) (energyValues : list float) : option HistoricalBaseline.t :=
  let sum := fold_left (λ acc val, acc + val) energyValues 0 in
  let avg := sum / Number.of_length (length energyValues) in
  match Number.spread limit Number.Math_min energyValues with
  | None => None
  | Some min =>
      match Number.spread limit Number.Math_max energyValues with
      | None => None
      | Some max =>
          Some {| HistoricalBaseline.zoneId := zone;
                  HistoricalBaseline.zoneName := zone_name_of historicalData zone;
                  HistoricalBaseline.avgEnergyKw := avg;
                  HistoricalBaseline.minEnergyKw := min;
                  HistoricalBaseline.maxEnergyKw := max;
                  HistoricalBaseline.dataPoints := length energyValues |}
      end
  end.

(** One turn of the second loop: once a turn has thrown, nothing follows;
    otherwise the zone's baseline is set in the map. *)
Definition baselines_step (limit : nat) (historicalData : list EnergyReading.t)
    (zone : string) (energyValues : list float)
    (baselines : option (gmap string HistoricalBaseline.t))
    : option (gmap string HistoricalBaseline.t) :=
  match baselines with
  | None => None
  | Some baselines =>
      match baseline_of limit historicalData zone energyValues with
      | None => None
      | Some b => Some (<[zone := b]> baselines)
      end
  end.

(** [None] is the RangeError of a spread call, which the function does not
    catch. *)
Definition calculateBaselines (limit : nat) (historicalData : list EnergyReading.t)
    : option (gmap string HistoricalBaseline.t) :=
  let zoneData := fold_left group_step historicalData ∅ in
  map_fold (baselines_step limit historicalData) (Some ∅) zoneData.

Definition calculatePercentageDiff (current baseline : float) : float :=
  if baseline =? 0 then 0 else ((current - baseline) / baseline) * 100.

Inductive ComparisonStatus : Type := normal | above | below.

Definition getComparisonStatus (percentage : float) : ComparisonStatus :=
  if abs percentage <? 10 then normal
  else if percentage >? 0 then above else below.

(** The pair computed for each zone by [HistoricalComparison.tsx]. *)
Definition compare (current baseline : float) : float * ComparisonStatus :=
  let percentage := calculatePercentageDiff current baseline in
  (percentage, getComparisonStatus percentage).

(** The specification's reading of the baseline: the group of a zone, and
    the statistics of a group. *)

(** The [energyKw] values of the readings of [zone], in corpus order. *)
Definition zone_values (corpus : list EnergyReading.t) (zone : string)
    : list float :=
  energyKw <$> filter (λ r, zoneId r = zone) corpus.

(** The arithmetic mean in binary64: the sum, taken in corpus order, over the
    number of values. *)
Definition arithmetic_mean (values : list float) : float :=
  fold_left PrimFloat.add values 0 / Number.of_length (length values).

(** [m] is a least, respectively greatest, element of [values]. *)
Definition is_minimum (m : float) (values : list float) : Prop :=
  m ∈ values ∧ Forall (λ v, (m <=? v) = true) values.

Definition is_maximum (m : float) (values : list float) : Prop :=
  m ∈ values ∧ Forall (λ v, (v <=? m) = true) values.

End HistoricalData.

(** ** [hooks/useWebSocket.ts] *)

Module UseWebSocket.

Definition MAX_RECONNECT : nat := 5.

(** The hook's cells: the two [useState] values, [reconnectAttemptsRef], the
    pending retry timer (with its delay in milliseconds) and [isMounted]. *)
Record State : Type := {
  status : ConnectionStatus;
  attempts : nat;
  reconnectAttemptsRef : nat;
  timeoutRef : option Z;
  isMounted : bool
}.

(** The state in which the effect leaves the hook after its first [connect()]. *)
Definition initial : State :=
  {| status := CONNECTING; attempts := 0; reconnectAttemptsRef := 0;
     timeoutRef := None; isMounted := true |}.

Inductive Event : Type :=
| Open        (* ws.onopen *)
| Message     (* ws.onmessage *)
| Error       (* ws.onerror *)
| Close       (* ws.onclose *)
| TimerFired  (* the callback given to setTimeout *)
| Unmount.    (* the effect's cleanup *)

Global Instance Event_eq_dec : EqDecision Event.
Proof. solve_decision. Defined.

(** [1000 * Math.pow(2, n)]; the counter never exceeds [MAX_RECONNECT], so the
    product is an exact integer. *)
Definition backoff_delay (n : nat) : Z := (1000 * 2 ^ Z.of_nat n)%Z.

Definition onopen (st : State) : State :=
  if negb (isMounted st) then st
  else {| status := CONNECTED; attempts := 0; reconnectAttemptsRef := 0;
          timeoutRef := timeoutRef st; isMounted := isMounted st |}.

Definition onerror (st : State) : State :=
  if negb (isMounted st) then st
  else {| status := ERROR; attempts := attempts st;
          reconnectAttemptsRef := reconnectAttemptsRef st;
          timeoutRef := timeoutRef st; isMounted := isMounted st |}.

(** Returns the new state and the delay handed to [setTimeout], if any. *)
Definition onclose (st : State) : State * option Z :=
  if negb (isMounted st) then (st, None)
  else if Nat.ltb (reconnectAttemptsRef st) MAX_RECONNECT then
    let delay := backoff_delay (reconnectAttemptsRef st) in
    let n := S (reconnectAttemptsRef st) in
    ({| status := DISCONNECTED; attempts := n; reconnectAttemptsRef := n;
        timeoutRef := Some delay; isMounted := isMounted st |}, Some delay)
  else
    ({| status := DISCONNECTED; attempts := attempts st;
        reconnectAttemptsRef := reconnectAttemptsRef st;
        timeoutRef := timeoutRef st; isMounted := isMounted st |}, None).

Definition ontimer (st : State) : State :=
  if isMounted st then
    {| status := CONNECTING; attempts := attempts st;
       reconnectAttemptsRef := reconnectAttemptsRef st;
       timeoutRef := timeoutRef st; isMounted := isMounted st |}
  else st.

Definition cleanup (st : State) : State :=
  {| status := status st; attempts := attempts st;
     reconnectAttemptsRef := reconnectAttemptsRef st;
     timeoutRef := None; isMounted := false |}.

Definition step (st : State) (ev : Event) : State * option Z :=
  match ev with
  | Open => (onopen st, None)
  | Message => (st, None)
  | Error => (onerror st, None)
  | Close => onclose st
  | TimerFired => (ontimer st, None)
  | Unmount => (cleanup st, None)
  end.

(** Runs a sequence of events; the second component lists, in order, the
    delays of the retries that were scheduled. *)
Fixpoint run (st : State) (evs : list Event) : State * list Z :=
  match evs with
  | [] => (st, [])
  | ev :: evs =>
      let '(st', d) := step st ev in
      let '(st'', ds) := run st' evs in
      (st'', match d with Some x => x :: ds | None => ds end)
  end.

(** [n] consecutive connection losses: between two closes the retry timer
    fires and opens the socket that fails next. *)
Fixpoint closes (n : nat) : list Event :=
  match n with
  | O => []
  | S O => [Close]
  | S (S _ as n') => Close :: TimerFired :: closes n'
  end.

(** The number of close events in a sequence, and whether it is free of
    open events and of the cleanup. *)
Definition count_closes (evs : list Event) : nat :=
  length (filter (λ ev, ev = Close) evs).

Definition no_open (evs : list Event) : Prop :=
  Forall (λ ev, ev ≠ Open ∧ ev ≠ Unmount) evs.

(** The hook has its effect installed and no reconnect attempt counted: the
    state at start-up and after every successful open. *)
Definition fresh (st : State) : Prop :=
  isMounted st = true ∧ attempts st = 0 ∧ reconnectAttemptsRef st = 0.

(** The delay table of the hook's earlier revision, kept in the same file:
    [delays[Math.min(reconnectAttempts, delays.length - 1)]]. *)
Definition delays : list Z := [1000; 2000; 4000; 8000; 16000]%Z.

Definition table_delay (reconnectAttempts : nat) : Z :=
  nth (Nat.min reconnectAttempts (length delays - 1)) delays 0%Z.

End UseWebSocket.

(** ** Sample data *)

Module Samples.

Local Open Scope float_scope.

(** A reading of [kw] kilowatts in zone [zone]. *)
Definition reading_of (zone : string) (kw : float) : EnergyReading.t :=
  {| EnergyReading.timestamp := "2024-01-01T00:00:00.000Z";
     EnergyReading.zoneId := zone;
     EnergyReading.zoneName := zone;
     EnergyReading.energyKw := kw;
     EnergyReading.temperature := 20;
     EnergyReading.equipmentCount := 1 |}.

(** [n] successive readings of one zone, of 0, 1, 2, ... kilowatts. *)
Definition burst (zone : string) (n : nat) : list EnergyReading.t :=
  (λ i, reading_of zone (Number.of_length i)) <$> seq 0 n.

(** The two-reading corpus of zone [a]. *)
Definition corpus_a : list EnergyReading.t :=
  [reading_of "a" 10; reading_of "a" 20].

(** Its baseline and its baseline map. *)
Definition baseline_a : HistoricalBaseline.t :=
  {| HistoricalBaseline.zoneId := "a";
     HistoricalBaseline.zoneName := "a";
     HistoricalBaseline.avgEnergyKw := 15;
     HistoricalBaseline.minEnergyKw := 10;
     HistoricalBaseline.maxEnergyKw := 20;
     HistoricalBaseline.dataPoints := 2 |}.

Definition baselines_a : gmap string HistoricalBaseline.t :=
  <["a"%string := baseline_a]> ∅.

End Samples.

(** ** The anomaly stream of a message sequence *)

Module Detections.

Import EnergyReading.

(** What the detector says about [reading] once [seen] has been ingested:
    the previous reading is the last one of the same zone, by arrival. *)
Definition detection_at (seen : list EnergyReading.t)
    (reading : EnergyReading.t) : option Anomaly.t :=
  AnomalyDetection.detectAnomaly reading
    (last (EnergyContext.zone_history seen (zoneId reading))).

(** Every anomaly raised while ingesting [msgs] after [seen], in order. *)
Fixpoint detections_from (seen msgs : list EnergyReading.t) : list Anomaly.t :=
  match msgs with
  | [] => []
  | reading :: msgs =>
      option_list (detection_at seen reading)
        ++ detections_from (seen ++ [reading]) msgs
  end.

Definition detections (msgs : list EnergyReading.t) : list Anomaly.t :=
  detections_from [] msgs.

End Detections.

(** ** [components/AnomalyList.tsx] *)

Module AnomalyList.

(** [anomalies.slice(-20).reverse()] *)
Definition recentAnomalies (anomalies : list Anomaly.t) : list Anomaly.t :=
  reverse (EnergyContext.slice_last 20 anomalies).

End AnomalyList.

(** ** [components/EnergyChart.tsx] *)

Module EnergyChart.

(** Wait for 1000+ points before showing chart. *)
Definition MIN_DATA_POINTS : nat := 1000.

(** [readings.forEach(zoneReadings => count += zoneReadings.length)] *)
Definition totalDataPoints (readings : gmap string (list EnergyReading.t)) : nat :=
  map_fold (λ _ zoneReadings count, count + length zoneReadings) 0 readings.

(** The component shows its "Collecting data..." state. *)
Definition collecting (readings : gmap string (list EnergyReading.t)) : bool :=
  Nat.ltb (totalDataPoints readings) MIN_DATA_POINTS.

End EnergyChart.

(** ** [hooks/useHistoricalData.ts] *)

Module UseHistoricalData.

(** The hook's three cells. *)
Record State : Type := {
  baselines : gmap string HistoricalBaseline.t;
  loading : bool;
  error : option string
}.

Definition initial : State :=
  {| baselines := ∅; loading := true; error := None |}.

(** [loadHistoricalData]: a failed fetch, a response that is not ok and a
    body that is not JSON all end in the [catch], which returns [[]].  The
    response is [None] in those cases. *)
Definition loadHistoricalData (response : option (list EnergyReading.t))
    : list EnergyReading.t :=
  match response with
  | Some data => data
  | None => []
  end.

(** The state once [loadData] has run to its end on a mounted component.
    An exception of [calculateBaselines] is caught by the [catch] branch;
    the [finally] branch clears [loading] on every path. *)
Definition loadData (limit : nat) (response : option (list EnergyReading.t))
    : State :=
  let historicalData := loadHistoricalData response in
  if Nat.eqb (length historicalData) 0 then
    {| baselines := baselines initial; loading := false;
       error := Some "No historical data available"%string |}
  else
    match HistoricalData.calculateBaselines limit historicalData with
    | Some calculatedBaselines =>
        {| baselines := calculatedBaselines; loading := false; error := None |}
    | None =>
        {| baselines := baselines initial; loading := false;
           error := Some "Failed to load historical data"%string |}
    end.

End UseHistoricalData.

(** ** [components/HistoricalComparison.tsx] *)

Module HistoricalComparison.

Local Open Scope float_scope.

Inductive TimeRange : Type := hour | today | week.

Definition filterBaselineByTimeRange (baseline : HistoricalBaseline.t)
    (range : TimeRange) : HistoricalBaseline.t :=
  let scaled (factor : float) :=
    {| HistoricalBaseline.zoneId := HistoricalBaseline.zoneId baseline;
       HistoricalBaseline.zoneName := HistoricalBaseline.zoneName baseline;
       HistoricalBaseline.avgEnergyKw :=
         HistoricalBaseline.avgEnergyKw baseline * factor;
       HistoricalBaseline.minEnergyKw := HistoricalBaseline.minEnergyKw baseline;
       HistoricalBaseline.maxEnergyKw := HistoricalBaseline.maxEnergyKw baseline;
       HistoricalBaseline.dataPoints := HistoricalBaseline.dataPoints baseline |} in
  match range with
  | hour => scaled 1.05
  | today => scaled 1.02
  | week => baseline
  end.

Record Comparison : Type := {
  zoneId : string;
  zoneName : string;
  current : float;
  baseline : float;
  percentage : float;
  status : HistoricalData.ComparisonStatus
}.

(** The body of the loop over [latestReadings.entries()]: [None] is the
    [continue] taken when the zone has no baseline. *)
Definition comparison_of (baselines : gmap string HistoricalBaseline.t)
    (timeRange : TimeRange) (entry : string * EnergyReading.t)
    : option Comparison :=
  let '(zone, reading) := entry in
  match baselines !! zone with
  | None => None
  | Some baseline =>
      let filteredBaseline := filterBaselineByTimeRange baseline timeRange in
      let percentage :=
        HistoricalData.calculatePercentageDiff
          (EnergyReading.energyKw reading)
          (HistoricalBaseline.avgEnergyKw filteredBaseline) in
      Some {| zoneId := zone;
              zoneName := EnergyReading.zoneName reading;
              current := EnergyReading.energyKw reading;
              baseline := HistoricalBaseline.avgEnergyKw filteredBaseline;
              percentage := percentage;
              status := HistoricalData.getComparisonStatus percentage |}
  end.

(** The [comparisons] memo; the entries of the [latestReadings] map are
    taken as the list of its pairs, in the map's iteration order. *)
Definition comparisons (latestReadings : list (string * EnergyReading.t))
    (baselines : gmap string HistoricalBaseline.t) (timeRange : TimeRange)
    : list Comparison :=
  omap (comparison_of baselines timeRange) latestReadings.

(** What the component renders. *)
Inductive View : Type :=
| LoadingView
| ErrorView (message : string)
| NoDataView
| GridView (cards : list Comparison).

Definition render (hook : UseHistoricalData.State)
    (latestReadings : list (string * EnergyReading.t)) (timeRange : TimeRange)
    : View :=
  let cards := comparisons latestReadings (UseHistoricalData.baselines hook) timeRange in
  if UseHistoricalData.loading hook then LoadingView
  else match UseHistoricalData.error hook with
       | Some message =>
           if String.eqb message "" then
             (if Nat.eqb (length cards) 0 then NoDataView else GridView cards)
           else ErrorView message
       | None =>
           if Nat.eqb (length cards) 0 then NoDataView else GridView cards
       end.

End HistoricalComparison.

(** ** More sample data *)

Module MoreSamples.

Local Open Scope float_scope.

(** A warehouse stuck at 30 kW while the paint shop reports 500 kW. *)
Definition flat_run : list EnergyReading.t :=
  [ Samples.reading_of "warehouse" 30; Samples.reading_of "paint-shop" 500;
    Samples.reading_of "warehouse" 30; Samples.reading_of "warehouse" 30 ].

(** Two failed connections, a successful one, and its loss. *)
Definition flaky : list UseWebSocket.Event :=
  [ UseWebSocket.Error; UseWebSocket.Close; UseWebSocket.TimerFired;
    UseWebSocket.Error; UseWebSocket.Close; UseWebSocket.TimerFired ].

End MoreSamples.

(** * Properties *)

(** ** Facts about binary64 rounding *)

Section RoundingFacts.

Local Open Scope Z_scope.

Lemma fexp_unfold (k : Z) : fexp prec emax k = Z.max (k - 53) (-1074).
Proof. reflexivity. Qed.

(** A canonical mantissa is not shifted. *)
Lemma shr_fexp_canonical (m : positive) (e : Z) :
  fexp prec emax (Z.pos (digits2_pos m) + e) = e →
  shr_fexp prec emax (Z.pos m) e loc_Exact =
    ({| shr_m := Z.pos m; shr_r := false; shr_s := false |}, e).
Proof.
  intros H. unfold shr_fexp, Zdigits2. rewrite H, Z.sub_diag. reflexivity.
Qed.

(** Rounding a representable number gives that number. *)
Lemma binary_round_aux_canonical (s : bool) (m : positive) (e : Z) :
  fexp prec emax (Z.pos (digits2_pos m) + e) = e →
  e <= emax - prec →
  binary_round_aux prec emax s (Z.pos m) e loc_Exact = S754_finite s m e.
Proof.
  intros H Hb. unfold binary_round_aux.
  rewrite (shr_fexp_canonical m e H).
  cbn [shr_m loc_of_shr_record round_nearest_even].
  rewrite (shr_fexp_canonical m e H). cbn [shr_m].
  apply Z.leb_le in Hb. rewrite Hb. reflexivity.
Qed.

(** The same number with its mantissa doubled and its exponent lowered
    rounds back to the canonical form. *)
Lemma binary_round_aux_doubled (s : bool) (m : positive) (e : Z) :
  fexp prec emax (Z.pos (digits2_pos m) + e) = e →
  e <= emax - prec →
  -1074 < e →
  binary_round_aux prec emax s (Z.pos m~0) (e - 1) loc_Exact = S754_finite s m e.
Proof.
  intros H Hb Hlo. unfold binary_round_aux.
  assert (H1 : shr_fexp prec emax (Z.pos m~0) (e - 1) loc_Exact =
               ({| shr_m := Z.pos m; shr_r := false; shr_s := false |}, e)).
  { unfold shr_fexp, Zdigits2. cbn [digits2_pos].
    rewrite fexp_unfold in *.
    replace (Z.max (Z.pos (Pos.succ (digits2_pos m)) + (e - 1) - 53) (-1074) - (e - 1))
      with 1 by lia.
    unfold shr. cbn [shr_record_of_loc iter_pos shr_1 orb].
    f_equal. lia. }
  rewrite H1. cbn [shr_m loc_of_shr_record round_nearest_even].
  rewrite (shr_fexp_canonical m e H). cbn [shr_m].
  apply Z.leb_le in Hb. rewrite Hb. reflexivity.
Qed.

Lemma div_eucl_exact (a b : Z) : 0 < b → Z.div_eucl (a * b) b = (a, 0).
Proof.
  intros Hb.
  pose proof (Z.div_mul a b ltac:(lia)) as Hq.
  pose proof (Z.mod_mul a b ltac:(lia)) as Hr.
  unfold Z.div, Z.modulo in Hq, Hr.
  destruct (Z.div_eucl (a * b) b) as [q r]. by subst.
Qed.

(** Division of a finite binary64 number by 1 is exact. *)
Lemma SFdiv_one (s : bool) (m : positive) (e : Z) :
  valid_binary (S754_finite s m e) = true →
  SF64div (S754_finite s m e) (Prim2SF 1%float) = S754_finite s m e.
Proof.
  unfold valid_binary, SpecFloat.valid_binary, bounded, canonical_mantissa.
  intros H. apply andb_prop in H as [Hc Hb].
  apply Z.eqb_eq in Hc. apply Z.leb_le in Hb.
  change (Prim2SF 1%float) with (S754_finite false 4503599627370496 (-52)).
  unfold SF64div, SFdiv, SFdiv_core_binary.
  change (Zdigits2 (Z.pos 4503599627370496)) with 53.
  cbn [Zdigits2]. rewrite xorb_false_r.
  pose proof (Pos2Z.is_pos (digits2_pos m)) as Hd.
  pose proof Hc as Hc'. rewrite fexp_unfold in Hc'. rewrite fexp_unfold.
  destruct (Z.eq_dec e (-1074)) as [He|He].
  - replace (Z.min (Z.max (Z.pos (digits2_pos m) + e - (53 + -52) - 53) (-1074)) (e - -52))
      with e by lia.
    replace (e - -52 - e) with 52 by lia.
    rewrite Z.shiftl_mul_pow2 by lia.
    change (2 ^ 52) with 4503599627370496.
    rewrite div_eucl_exact by lia.
    change (new_location 4503599627370496 0) with loc_Exact.
    by apply binary_round_aux_canonical.
  - replace (Z.min (Z.max (Z.pos (digits2_pos m) + e - (53 + -52) - 53) (-1074)) (e - -52))
      with (e - 1) by lia.
    replace (e - -52 - (e - 1)) with 53 by lia.
    rewrite Z.shiftl_mul_pow2 by lia.
    replace (Z.pos m * 2 ^ 53) with (Z.pos m~0 * 4503599627370496) by lia.
    rewrite div_eucl_exact by lia.
    change (new_location 4503599627370496 0) with loc_Exact.
    apply binary_round_aux_doubled; [done|done|lia].
Qed.

(** The order of the specification is transitive. *)
Lemma SFleb_trans (x y z : spec_float) :
  SFleb x y = true → SFleb y z = true → SFleb x z = true.
Proof.
  unfold SFleb.
  destruct x as [sx|sx| |sx mx ex], y as [sy|sy| |sy my ey],
           z as [sz|sz| |sz mz ez];
    cbn [SFcompare]; try discriminate; try reflexivity;
    try (destruct sx; discriminate || reflexivity);
    try (destruct sy; discriminate || reflexivity);
    try (destruct sz; discriminate || reflexivity);
    try (destruct sx, sy; discriminate || reflexivity);
    try (destruct sx, sz; discriminate || reflexivity);
    try (destruct sy, sz; discriminate || reflexivity);
    try (destruct sx, sy, sz; discriminate || reflexivity).
  change (Pos.compare_cont Eq) with Pos.compare.
  destruct sx, sy, sz; try discriminate; try reflexivity;
    destruct (Z.compare_spec ex ey), (Z.compare_spec ey ez),
             (Z.compare_spec ex ez);
    try discriminate; try reflexivity; try lia;
    destruct (Pos.compare_spec mx my), (Pos.compare_spec my mz),
             (Pos.compare_spec mx mz);
    cbn [CompOpp]; try discriminate; try reflexivity; lia.
Qed.

End RoundingFacts.

(** ** Facts about binary64 comparison and division *)

Section NumberFacts.

Local Open Scope float_scope.

Lemma SFcompare_antisym (x y : spec_float) :
  SFcompare y x = option_map CompOpp (SFcompare x y).
Proof.
  destruct x as [sx|sx| |sx mx ex], y as [sy|sy| |sy my ey]; simpl;
    try reflexivity;
    try (destruct sx; reflexivity); try (destruct sy; reflexivity);
    try (destruct sx, sy; reflexivity).
  assert (Hm : Pos.compare_cont Eq my mx = CompOpp (Pos.compare_cont Eq mx my))
    by (symmetry; apply (Pos.compare_cont_antisym mx my Eq)).
  destruct sx, sy; simpl; try reflexivity;
    rewrite (Z.compare_antisym ex ey), Hm;
    destruct (ex ?= ey)%Z; simpl; try reflexivity;
    destruct (Pos.compare_cont Eq mx my); reflexivity.
Qed.

(** [x <= y] excludes [x > y]. *)
Lemma leb_true_gtb_false (x y : float) :
  (x <=? y) = true → (x >? y) = false.
Proof.
  unfold Number.gtb. rewrite leb_spec, ltb_spec. unfold SFleb, SFltb.
  rewrite (SFcompare_antisym (Prim2SF x) (Prim2SF y)).
  destruct (SFcompare (Prim2SF x) (Prim2SF y)) as [[]|]; simpl; congruence.
Qed.

(** [x >= y] excludes [x < y]. *)
Lemma geb_true_ltb_false (x y : float) :
  (x >=? y) = true → (x <? y) = false.
Proof.
  unfold Number.geb. rewrite leb_spec, ltb_spec. unfold SFleb, SFltb.
  rewrite (SFcompare_antisym (Prim2SF y) (Prim2SF x)).
  destruct (SFcompare (Prim2SF y) (Prim2SF x)) as [[]|]; simpl; congruence.
Qed.

(** A number that compares equal to 0 is one of the two zeros. *)
Lemma eqb_zero_inv (p : float) :
  (p =? 0) = true → ∃ s, Prim2SF p = S754_zero s.
Proof.
  rewrite FloatAxioms.eqb_spec. unfold SFeqb.
  change (Prim2SF 0) with (S754_zero false).
  destruct (Prim2SF p) as [s|s| |s m e]; simpl; eauto;
    try discriminate; destruct s; discriminate.
Qed.

(** A number at or above a positive finite number is positive, and is
    either finite or [+Infinity]. *)
Lemma geb_pos_finite_inv (e c : float) (m : positive) (ex : Z) :
  Prim2SF c = S754_finite false m ex →
  (e >=? c) = true →
  Prim2SF e = S754_infinity false ∨ ∃ m' ex', Prim2SF e = S754_finite false m' ex'.
Proof.
  intros Hc. unfold Number.geb. rewrite leb_spec, Hc. unfold SFleb.
  destruct (Prim2SF e) as [s|s| |s m' ex']; simpl; try discriminate.
  - destruct s; [discriminate | auto].
  - destruct s; [discriminate | eauto].
Qed.

(** Dividing a positive number by a zero gives an infinity, whose absolute
    value is [+Infinity]: this is the percent change from a previous reading
    of exactly 0. *)
Lemma abs_div_zero (e p : float) (s : bool) :
  Prim2SF p = S754_zero s →
  (Prim2SF e = S754_infinity false ∨ ∃ m ex, Prim2SF e = S754_finite false m ex) →
  abs ((e - p) / p) = infinity ∧ (e >? p) = true.
Proof.
  intros Hp He.
  assert (Hsub : Prim2SF (e - p) = Prim2SF e).
  { rewrite sub_spec, Hp. destruct He as [-> | (m & ex & ->)]; reflexivity. }
  split.
  - apply Prim2SF_inj. rewrite abs_spec, div_spec, Hsub, Hp.
    destruct He as [-> | (m & ex & ->)]; reflexivity.
  - unfold Number.gtb. rewrite ltb_spec, Hp.
    destruct He as [-> | (m & ex & ->)]; reflexivity.
Qed.

(** Rounding only tags the result with the sign it is given. *)
Lemma SFabs_binary_round_aux (s : bool) (m e : Z) (l : location) :
  SFabs (binary_round_aux prec emax s m e l) = binary_round_aux prec emax false m e l.
Proof.
  unfold binary_round_aux.
  destruct (shr_fexp prec emax m e l) as [mrs' e'].
  destruct (shr_fexp prec emax _ e' loc_Exact) as [mrs'' e''].
  destruct (shr_m mrs''); [reflexivity| |reflexivity].
  destruct (e'' <=? emax - prec)%Z; reflexivity.
Qed.

(** For a positive divisor, [|x| / p] and [|x / p|] are the same number. *)
Lemma abs_div_positive (x p : float) :
  (0 <=? p) = true → (p =? 0) = false → abs x / p = abs (x / p).
Proof.
  rewrite leb_spec, FloatAxioms.eqb_spec. unfold SFleb, SFeqb.
  change (Prim2SF 0) with (S754_zero false).
  intros Hle Hne. apply Prim2SF_inj.
  rewrite abs_spec, !div_spec, abs_spec.
  destruct (Prim2SF p) as [sp|sp| |sp mp ep]; try discriminate;
    destruct sp; try discriminate;
    destruct (Prim2SF x) as [sx|sx| |sx mx ex]; try reflexivity.
  unfold SF64div, SFdiv, SFabs at 1.
  destruct (SFdiv_core_binary prec emax (Z.pos mx) ex (Z.pos mp) ep) as [[mz ez] lz].
  symmetry. apply SFabs_binary_round_aux.
Qed.

(** *** Order facts *)

Lemma is_nan_false (a : float) :
  is_nan a = false ↔ Prim2SF a ≠ S754_nan.
Proof.
  unfold is_nan. rewrite FloatAxioms.eqb_spec. unfold SFeqb.
  destruct (Prim2SF a) as [s|s| |s m e]; cbn [SFcompare negb]; try done.
  - by destruct s.
  - destruct s; cbn; rewrite Z.compare_refl, Pos.compare_cont_refl; done.
Qed.

Lemma SFcompare_total (x y : spec_float) :
  x ≠ S754_nan → y ≠ S754_nan → ∃ c, SFcompare x y = Some c.
Proof.
  destruct x, y; cbn [SFcompare]; try done; eauto.
Qed.

Lemma leb_trans (x y z : float) :
  (x <=? y) = true → (y <=? z) = true → (x <=? z) = true.
Proof. rewrite !leb_spec. apply SFleb_trans. Qed.

Lemma leb_true_not_nan (x y : float) :
  (x <=? y) = true → is_nan x = false ∧ is_nan y = false.
Proof.
  rewrite leb_spec, !is_nan_false. unfold SFleb.
  destruct (Prim2SF x), (Prim2SF y); cbn [SFcompare]; done.
Qed.

Lemma ltb_leb (x y : float) : (x <? y) = true → (x <=? y) = true.
Proof.
  rewrite ltb_spec, leb_spec. unfold SFltb, SFleb.
  by destruct (SFcompare (Prim2SF x) (Prim2SF y)) as [[]|].
Qed.

(** Two numbers neither of which is NaN are comparable. *)
Lemma ltb_false_leb (x y : float) :
  is_nan x = false → is_nan y = false → (y <? x) = false → (x <=? y) = true.
Proof.
  rewrite !is_nan_false, ltb_spec, leb_spec. unfold SFltb, SFleb.
  intros Hx Hy. rewrite (SFcompare_antisym (Prim2SF x) (Prim2SF y)).
  destruct (SFcompare_total _ _ Hx Hy) as [c ->]. by destruct c.
Qed.

Lemma leb_refl (x : float) : is_nan x = false → (x <=? x) = true.
Proof.
  intros Hx. apply ltb_false_leb; [done|done|].
  destruct (x <? x) eqn:E; [|done].
  pose proof (leb_true_gtb_false x x (ltb_leb _ _ E)) as H.
  unfold Number.gtb in H. congruence.
Qed.

Lemma infinity_leb_inv (v : float) : (infinity <=? v) = true → v = infinity.
Proof.
  rewrite leb_spec. intros H. apply Prim2SF_inj.
  change (Prim2SF infinity) with (S754_infinity false) in *.
  unfold SFleb in H.
  destruct (Prim2SF v) as [s|s| |s m e]; cbn [SFcompare] in H; try done.
  by destruct s.
Qed.

Lemma leb_neg_infinity_inv (v : float) : (v <=? neg_infinity) = true → v = neg_infinity.
Proof.
  rewrite leb_spec. intros H. apply Prim2SF_inj.
  change (Prim2SF neg_infinity) with (S754_infinity true) in *.
  unfold SFleb in H.
  destruct (Prim2SF v) as [s|s| |s m e]; cbn [SFcompare] in H; try done;
    by destruct s.
Qed.

(** *** [Math.min] and [Math.max] *)

Lemma min2_spec (a b : float) :
  is_nan a = false → is_nan b = false →
  (Number.min2 a b = a ∨ Number.min2 a b = b) ∧
  (Number.min2 a b <=? a) = true ∧ (Number.min2 a b <=? b) = true.
Proof.
  intros Ha Hb. unfold Number.min2. rewrite Ha, Hb.
  destruct (b <? a) eqn:E1.
  { split; [by right|]. split; [by apply ltb_leb | by apply leb_refl]. }
  destruct (a <? b) eqn:E2.
  { split; [by left|]. split; [by apply leb_refl | by apply ltb_leb]. }
  pose proof (ltb_false_leb a b Ha Hb E1). pose proof (ltb_false_leb b a Hb Ha E2).
  destruct (Number.is_neg_zero b);
    (split; [auto|]); split; auto using leb_refl.
Qed.

Lemma max2_spec (a b : float) :
  is_nan a = false → is_nan b = false →
  (Number.max2 a b = a ∨ Number.max2 a b = b) ∧
  (a <=? Number.max2 a b) = true ∧ (b <=? Number.max2 a b) = true.
Proof.
  intros Ha Hb. unfold Number.max2. rewrite Ha, Hb.
  destruct (a <? b) eqn:E1.
  { split; [by right|]. split; [by apply ltb_leb | by apply leb_refl]. }
  destruct (b <? a) eqn:E2.
  { split; [by left|]. split; [by apply leb_refl | by apply ltb_leb]. }
  pose proof (ltb_false_leb a b Ha Hb E2). pose proof (ltb_false_leb b a Hb Ha E1).
  destruct (Number.is_neg_zero a);
    (split; [auto|]); split; auto using leb_refl.
Qed.

Lemma fold_min2_spec (values : list float) (acc : float) :
  is_nan acc = false → Forall (λ v, is_nan v = false) values →
  let r := fold_left Number.min2 values acc in
  (r <=? acc) = true ∧ Forall (λ v, (r <=? v) = true) values ∧
  (r = acc ∨ r ∈ values).
Proof.
  revert acc. induction values as [|v values IH]; intros acc Hacc Hvs; cbn.
  - split; [by apply leb_refl|]. split; [constructor | by left].
  - apply Forall_cons in Hvs as [Hv Hvs].
    destruct (min2_spec acc v Hacc Hv) as (Hcase & Hle1 & Hle2).
    assert (Hacc' : is_nan (Number.min2 acc v) = false)
      by (destruct Hcase as [-> | ->]; done).
    destruct (IH _ Hacc' Hvs) as (I1 & I2 & I3).
    split; [by eapply leb_trans|].
    split; [constructor; [by eapply leb_trans | done]|].
    destruct I3 as [-> | I3]; [|right; by constructor].
    destruct Hcase as [-> | ->]; [by left | right; constructor].
Qed.

Lemma fold_max2_spec (values : list float) (acc : float) :
  is_nan acc = false → Forall (λ v, is_nan v = false) values →
  let r := fold_left Number.max2 values acc in
  (acc <=? r) = true ∧ Forall (λ v, (v <=? r) = true) values ∧
  (r = acc ∨ r ∈ values).
Proof.
  revert acc. induction values as [|v values IH]; intros acc Hacc Hvs; cbn.
  - split; [by apply leb_refl|]. split; [constructor | by left].
  - apply Forall_cons in Hvs as [Hv Hvs].
    destruct (max2_spec acc v Hacc Hv) as (Hcase & Hle1 & Hle2).
    assert (Hacc' : is_nan (Number.max2 acc v) = false)
      by (destruct Hcase as [-> | ->]; done).
    destruct (IH _ Hacc' Hvs) as (I1 & I2 & I3).
    split; [by eapply leb_trans|].
    split; [constructor; [by eapply leb_trans | done]|].
    destruct I3 as [-> | I3]; [|right; by constructor].
    destruct Hcase as [-> | ->]; [by left | right; constructor].
Qed.

(** [Math.min] of a non-empty array without NaN is a least element of it. *)
Lemma Math_min_is_minimum (values : list float) :
  values ≠ [] → Forall (λ v, is_nan v = false) values →
  HistoricalData.is_minimum (Number.Math_min values) values.
Proof.
  intros Hne Hvs. unfold Number.Math_min, HistoricalData.is_minimum.
  destruct (fold_min2_spec values infinity eq_refl Hvs) as (_ & Hall & Hin).
  split; [|done]. destruct Hin as [Hinf | Hin]; [|done].
  destruct values as [|v values]; [done|].
  apply Forall_cons in Hall as [Hv _]. rewrite Hinf in Hv |- *.
  rewrite (infinity_leb_inv v Hv). constructor.
Qed.

(** [Math.max] of a non-empty array without NaN is a greatest element of it. *)
Lemma Math_max_is_maximum (values : list float) :
  values ≠ [] → Forall (λ v, is_nan v = false) values →
  HistoricalData.is_maximum (Number.Math_max values) values.
Proof.
  intros Hne Hvs. unfold Number.Math_max, HistoricalData.is_maximum.
  destruct (fold_max2_spec values neg_infinity eq_refl Hvs) as (_ & Hall & Hin).
  split; [|done]. destruct Hin as [Hinf | Hin]; [|done].
  destruct values as [|v values]; [done|].
  apply Forall_cons in Hall as [Hv _]. rewrite Hinf in Hv |- *.
  rewrite (leb_neg_infinity_inv v Hv). constructor.
Qed.

(** [Math.min(x)] and [Math.max(x)] are [x], whatever [x] is. *)
Lemma Math_min_singleton (x : float) : Number.Math_min [x] = x.
Proof.
  unfold Number.Math_min. cbn [fold_left]. unfold Number.min2.
  change (is_nan infinity) with false. cbv iota.
  destruct (is_nan x) eqn:Hx; [done|].
  destruct (x <? infinity) eqn:E1; [done|].
  pose proof (ltb_false_leb infinity x eq_refl Hx E1) as Hle.
  rewrite (infinity_leb_inv x Hle). reflexivity.
Qed.

Lemma Math_max_singleton (x : float) : Number.Math_max [x] = x.
Proof.
  unfold Number.Math_max. cbn [fold_left]. unfold Number.max2.
  change (is_nan neg_infinity) with false. cbv iota.
  destruct (is_nan x) eqn:Hx; [done|].
  destruct (neg_infinity <? x) eqn:E1; [done|].
  pose proof (ltb_false_leb x neg_infinity Hx eq_refl E1) as Hle.
  rewrite (leb_neg_infinity_inv x Hle). reflexivity.
Qed.

(** *** The mean of a single value *)

(** Division by 1 is exact. *)
Lemma div_one (x : float) : x / 1 = x.
Proof.
  apply Prim2SF_inj. rewrite div_spec.
  pose proof (Prim2SF_valid x) as Hv.
  destruct (Prim2SF x) as [s|s| |s m e]; try (by destruct s); [done|].
  by apply SFdiv_one.
Qed.

Lemma sameValueZero_refl (x : float) : Number.sameValueZero x x = true.
Proof.
  unfold Number.sameValueZero, is_nan. by destruct (x =? x).
Qed.

(** The mean of the one-element array [[x]] is the same value as [x]. *)
Lemma arithmetic_mean_singleton (x : float) :
  Number.sameValueZero (HistoricalData.arithmetic_mean [x]) x = true.
Proof.
  unfold HistoricalData.arithmetic_mean. cbn [fold_left length].
  change (Number.of_length 1) with 1. rewrite div_one.
  destruct (Prim2SF x) as [s|s| |s m e] eqn:Hx.
  - unfold Number.sameValueZero.
    rewrite FloatAxioms.eqb_spec, add_spec, Hx.
    change (Prim2SF 0) with (S754_zero false). by destruct s.
  - replace (0 + x) with x; [apply sameValueZero_refl|].
    apply Prim2SF_inj. rewrite add_spec, Hx. reflexivity.
  - replace (0 + x) with x; [apply sameValueZero_refl|].
    apply Prim2SF_inj. rewrite add_spec, Hx. reflexivity.
  - replace (0 + x) with x; [apply sameValueZero_refl|].
    apply Prim2SF_inj. rewrite add_spec, Hx. reflexivity.
Qed.

End NumberFacts.

(** ** The anomaly detector *)

Section DetectorFacts.

Local Open Scope float_scope.
Import EnergyReading AnomalyDetection Samples.

(** The registered ranges, by inversion of the lookup. *)
Lemma ZONE_RANGES_inv (zone : string) (range : ZoneRange) :
  ZONE_RANGES !! zone = Some range →
  range ∈ [ {| min := 220; max := 280 |}; {| min := 150; max := 200 |};
            {| min := 300; max := 400 |}; {| min := 50; max := 80 |};
            {| min := 20; max := 40 |} ].
Proof.
  unfold ZONE_RANGES. simpl.
  repeat (rewrite lookup_insert; case_decide;
          [intros [= <-]; set_solver|]).
  rewrite lookup_empty. discriminate.
Qed.

(** Every registered zone's drop threshold is a positive finite number. *)
Lemma drop_threshold_positive (zone : string) (range : ZoneRange) :
  ZONE_RANGES !! zone = Some range →
  ∃ m ex, Prim2SF (min range * 0.5) = S754_finite false m ex.
Proof.
  intros H. apply ZONE_RANGES_inv in H.
  repeat (apply elem_of_cons in H as [-> | H];
          [vm_compute; eauto|]).
  by apply elem_of_nil in H.
Qed.

(** A registered zone resolves to its own range. *)
Lemma ZONE_RANGES_get_own (zone : string) (range : ZoneRange) :
  ZONE_RANGES !! zone = Some range → ZONE_RANGES_get zone = Some range.
Proof. intros H. unfold ZONE_RANGES_get. by rewrite H. Qed.

(** A zone id that resolves to nothing yields no anomaly, whatever the
    previous reading is. *)
Lemma detectAnomaly_unresolved
    (reading : EnergyReading.t) (previousReading : option EnergyReading.t) :
  ZONE_RANGES_get (zoneId reading) = None →
  detectAnomaly reading previousReading = None.
Proof. intros H. unfold detectAnomaly. by rewrite H. Qed.

(** C9 at the zone id "constructor": it is absent from the zone-range map,
    yet the lookup resolves it to an inherited property, the guard does not
    return, and the pattern rule reports a critical spike. *)
Theorem detectAnomaly_inherited_key :
  ZONE_RANGES !! "constructor"%string = None ∧
  ∃ a, detectAnomaly (reading_of "constructor" 30)
                     (Some (reading_of "constructor" 10)) = Some a ∧
       Anomaly.type a = AnomalyType.spike ∧
       Anomaly.severity a = critical ∧
       Anomaly.threshold a = 10 ∧
       Anomaly.value a = 30 ∧
       Anomaly.zoneId a = "constructor"%string.
Proof.
  split; [vm_compute; reflexivity|].
  eexists. split; [vm_compute; reflexivity|]. by cbn.
Qed.

(** C10: the detector never produces a flatline anomaly: its result is
    either none or an anomaly of type spike or drop. *)
Theorem detectAnomaly_never_flatline
    (reading : EnergyReading.t) (previousReading : option EnergyReading.t) :
  detectAnomaly reading previousReading = None ∨
  ∃ a, detectAnomaly reading previousReading = Some a ∧
       (Anomaly.type a = AnomalyType.spike ∨ Anomaly.type a = AnomalyType.drop).
Proof.
  unfold detectAnomaly.
  destruct (ZONE_RANGES_get (zoneId reading)) as [range|]; [|by left].
  destruct (energyKw reading >? max range * 1.5); [right; eauto|].
  destruct (energyKw reading <? min range * 0.5); [right; eauto|].
  destruct previousReading as [previous|]; [|by left].
  destruct (negb _); [by left|]. cbv zeta.
  destruct (percentChange _ _ <=? 0.3); [by left|].
  right. eexists. split; [reflexivity|]. simpl.
  destruct (energyKw reading >? energyKw previous); auto.
Qed.

(** The spike rule, as an equation. *)
Lemma detectAnomaly_spike_rule
    (reading : EnergyReading.t) (range : ZoneRange)
    (previousReading : option EnergyReading.t) :
  ZONE_RANGES !! zoneId reading = Some range →
  (energyKw reading >? max range * 1.5) = true →
  detectAnomaly reading previousReading =
    Some (createAnomaly reading AnomalyType.spike (max range * 1.5)
            (calculateSeverity (energyKw reading) (max range) 2)).
Proof.
  intros Hrange Hspike. unfold detectAnomaly.
  by rewrite (ZONE_RANGES_get_own _ _ Hrange), Hspike.
Qed.

(** The drop rule, as an equation. *)
Lemma detectAnomaly_drop_rule
    (reading : EnergyReading.t) (range : ZoneRange)
    (previousReading : option EnergyReading.t) :
  ZONE_RANGES !! zoneId reading = Some range →
  (energyKw reading >? max range * 1.5) = false →
  (energyKw reading <? min range * 0.5) = true →
  detectAnomaly reading previousReading =
    Some (createAnomaly reading AnomalyType.drop (min range * 0.5)
            (if energyKw reading <? min range * 0.3 then critical else warning)).
Proof.
  intros Hrange Hspike Hdrop. unfold detectAnomaly.
  by rewrite (ZONE_RANGES_get_own _ _ Hrange), Hspike, Hdrop.
Qed.

(** C1: a reading above 1.5 times the registered maximum yields an anomaly
    of type spike with threshold [max * 1.5], whatever the previous reading
    is; its severity is critical exactly when the reading exceeds [max * 2],
    and warning otherwise. *)
Theorem detectAnomaly_spike_threshold
    (reading : EnergyReading.t) (range : ZoneRange)
    (previousReading : option EnergyReading.t) :
  ZONE_RANGES !! zoneId reading = Some range →
  (energyKw reading >? max range * 1.5) = true →
  ∃ a,
    detectAnomaly reading previousReading = Some a ∧
    Anomaly.type a = AnomalyType.spike ∧
    Anomaly.threshold a = max range * 1.5 ∧
    (Anomaly.severity a = critical ↔ (energyKw reading >? max range * 2) = true) ∧
    (Anomaly.severity a = warning ↔ (energyKw reading >? max range * 2) = false) ∧
    Anomaly.value a = energyKw reading ∧
    Anomaly.zoneId a = zoneId reading.
Proof.
  intros Hrange Hspike.
  rewrite (detectAnomaly_spike_rule reading range previousReading Hrange Hspike).
  eexists. split; [reflexivity|].
  cbn [createAnomaly Anomaly.type Anomaly.threshold Anomaly.severity
       Anomaly.value Anomaly.zoneId].
  unfold calculateSeverity.
  destruct (energyKw reading >? max range * 2); split_and!; done.
Qed.

Lemma detectAnomaly_spike_threshold_witness :
  ∃ a,
    detectAnomaly (reading_of "warehouse" 61) (Some (reading_of "warehouse" 61)) = Some a ∧
    Anomaly.type a = AnomalyType.spike ∧
    Anomaly.threshold a = 40 * 1.5 ∧
    (Anomaly.severity a = critical ↔ (61 >? 40 * 2) = true) ∧
    (Anomaly.severity a = warning ↔ (61 >? 40 * 2) = false) ∧
    Anomaly.value a = 61 ∧
    Anomaly.zoneId a = "warehouse"%string.
Proof.
  apply (detectAnomaly_spike_threshold (reading_of "warehouse" 61)
           {| min := 20; max := 40 |}); vm_compute; reflexivity.
Defined.

(** C2: a reading not above the spike threshold and below half the
    registered minimum yields an anomaly of type drop with threshold
    [min * 0.5], whatever the previous reading is; its severity is critical
    exactly when the reading is below [min * 0.3], and warning otherwise. *)
Theorem detectAnomaly_drop_threshold
    (reading : EnergyReading.t) (range : ZoneRange)
    (previousReading : option EnergyReading.t) :
  ZONE_RANGES !! zoneId reading = Some range →
  (energyKw reading <=? max range * 1.5) = true →
  (energyKw reading <? min range * 0.5) = true →
  ∃ a,
    detectAnomaly reading previousReading = Some a ∧
    Anomaly.type a = AnomalyType.drop ∧
    Anomaly.threshold a = min range * 0.5 ∧
    (Anomaly.severity a = critical ↔ (energyKw reading <? min range * 0.3) = true) ∧
    (Anomaly.severity a = warning ↔ (energyKw reading <? min range * 0.3) = false) ∧
    Anomaly.value a = energyKw reading ∧
    Anomaly.zoneId a = zoneId reading.
Proof.
  intros Hrange Hle Hdrop.
  rewrite (detectAnomaly_drop_rule reading range previousReading Hrange
             (leb_true_gtb_false _ _ Hle) Hdrop).
  eexists. split; [reflexivity|].
  cbn [createAnomaly Anomaly.type Anomaly.threshold Anomaly.severity
       Anomaly.value Anomaly.zoneId].
  destruct (energyKw reading <? min range * 0.3); split_and!; done.
Qed.

Lemma detectAnomaly_drop_threshold_witness :
  ∃ a,
    detectAnomaly (reading_of "warehouse" 5) None = Some a ∧
    Anomaly.type a = AnomalyType.drop ∧
    Anomaly.threshold a = 20 * 0.5 ∧
    (Anomaly.severity a = critical ↔ (5 <? 20 * 0.3) = true) ∧
    (Anomaly.severity a = warning ↔ (5 <? 20 * 0.3) = false) ∧
    Anomaly.value a = 5 ∧
    Anomaly.zoneId a = "warehouse"%string.
Proof.
  apply (detectAnomaly_drop_threshold (reading_of "warehouse" 5)
           {| min := 20; max := 40 |}); vm_compute; reflexivity.
Defined.

(** The pattern rule as the code computes it, [|(e - p) / p|], for any
    previous reading of the same zone. *)
Lemma detectAnomaly_pattern_rule
    (reading previous : EnergyReading.t) (range : ZoneRange) :
  ZONE_RANGES !! zoneId reading = Some range →
  (energyKw reading >? max range * 1.5) = false →
  (energyKw reading <? min range * 0.5) = false →
  zoneId previous = zoneId reading →
  detectAnomaly reading (Some previous) =
    let pct := percentChange (energyKw reading) (energyKw previous) in
    if pct <=? 0.3 then None
    else Some (createAnomaly reading
                 (if energyKw reading >? energyKw previous
                  then AnomalyType.spike else AnomalyType.drop)
                 (energyKw previous)
                 (if pct >? 0.5 then critical else warning)).
Proof.
  intros Hrange Hspike Hdrop Hzone. unfold detectAnomaly.
  by rewrite (ZONE_RANGES_get_own _ _ Hrange), Hspike, Hdrop, Hzone,
       String.eqb_refl.
Qed.

(** C3, as the claim states it, fails: with [pctChange = |e - p| / p], a
    warehouse reading of 30 kW after a reading of -10 kW has
    [pctChange = -4 <= 0.3], and the detector does not return none. *)
Lemma detectAnomaly_pattern_counterexample :
  ¬ (∀ (reading previous : EnergyReading.t) (range : ZoneRange),
       ZONE_RANGES !! zoneId reading = Some range →
       (energyKw reading <=? max range * 1.5) = true →
       (energyKw reading >=? min range * 0.5) = true →
       zoneId previous = zoneId reading →
       (energyKw previous =? 0) = false →
       let pctChange :=
         abs (energyKw reading - energyKw previous) / energyKw previous in
       (pctChange <=? 0.3) = true →
       detectAnomaly reading (Some previous) = None).
Proof.
  intros H.
  specialize (H (reading_of "warehouse" 30) (reading_of "warehouse" (-10))
                {| min := 20; max := 40 |}).
  vm_compute in H. discriminate H; reflexivity.
Qed.

(** C3, amended: a reading within the threshold bounds, with a previous
    reading of the same zone whose energy is nonzero: with
    [pctChange = |(e - p) / p|], which is [|e - p| / p] when the previous
    energy is positive, the result is none when [pctChange <= 0.3];
    otherwise it is an anomaly of type spike if the reading exceeds the
    previous one and drop if not, with the previous energy as threshold, and
    its severity is critical exactly when [pctChange > 0.5]. *)
Theorem detectAnomaly_pattern
    (reading previous : EnergyReading.t) (range : ZoneRange) :
  ZONE_RANGES !! zoneId reading = Some range →
  (energyKw reading <=? max range * 1.5) = true →
  (energyKw reading >=? min range * 0.5) = true →
  zoneId previous = zoneId reading →
  (energyKw previous =? 0) = false →
  let pctChange := abs ((energyKw reading - energyKw previous) / energyKw previous) in
  ((0 <=? energyKw previous) = true →
   pctChange = abs (energyKw reading - energyKw previous) / energyKw previous) ∧
  ((pctChange <=? 0.3) = true → detectAnomaly reading (Some previous) = None) ∧
  ((pctChange <=? 0.3) = false →
   ∃ a,
     detectAnomaly reading (Some previous) = Some a ∧
     Anomaly.type a =
       (if energyKw reading >? energyKw previous
        then AnomalyType.spike else AnomalyType.drop) ∧
     Anomaly.threshold a = energyKw previous ∧
     (Anomaly.severity a = critical ↔ (pctChange >? 0.5) = true) ∧
     (Anomaly.severity a = warning ↔ (pctChange >? 0.5) = false) ∧
     Anomaly.value a = energyKw reading ∧
     Anomaly.zoneId a = zoneId reading).
Proof.
  intros Hrange Hle Hge Hzone Hnz pctChange.
  split; [intros Hpos; unfold pctChange; symmetry; by apply abs_div_positive|].
  rewrite (detectAnomaly_pattern_rule reading previous range Hrange
             (leb_true_gtb_false _ _ Hle) (geb_true_ltb_false _ _ Hge) Hzone).
  cbv zeta. unfold percentChange. fold pctChange.
  split; intros ->; [reflexivity|].
  eexists. split; [reflexivity|].
  cbn [createAnomaly Anomaly.type Anomaly.threshold Anomaly.severity
       Anomaly.value Anomaly.zoneId].
  destruct (pctChange >? 0.5); split_and!; done.
Qed.

Lemma detectAnomaly_pattern_witness :
  let pctChange := abs ((30 - 20) / 20) in
  ((0 <=? 20) = true → pctChange = abs (30 - 20) / 20) ∧
  ((pctChange <=? 0.3) = true →
   detectAnomaly (reading_of "warehouse" 30) (Some (reading_of "warehouse" 20)) = None) ∧
  ((pctChange <=? 0.3) = false →
   ∃ a,
     detectAnomaly (reading_of "warehouse" 30) (Some (reading_of "warehouse" 20)) = Some a ∧
     Anomaly.type a = (if 30 >? 20 then AnomalyType.spike else AnomalyType.drop) ∧
     Anomaly.threshold a = 20 ∧
     (Anomaly.severity a = critical ↔ (pctChange >? 0.5) = true) ∧
     (Anomaly.severity a = warning ↔ (pctChange >? 0.5) = false) ∧
     Anomaly.value a = 30 ∧
     Anomaly.zoneId a = "warehouse"%string).
Proof.
  apply (detectAnomaly_pattern (reading_of "warehouse" 30) (reading_of "warehouse" 20)
           {| min := 20; max := 40 |}); vm_compute; reflexivity.
Defined.

(** C4, as the claim states it, fails: a reading of 30 kW in the warehouse
    zone after a reading of exactly 0 kW is within the threshold bounds, and
    the detector does not return none. *)
Lemma detectAnomaly_zero_previous_counterexample :
  ¬ (∀ (reading previous : EnergyReading.t) (range : ZoneRange),
       ZONE_RANGES !! zoneId reading = Some range →
       (energyKw reading <=? max range * 1.5) = true →
       (energyKw reading >=? min range * 0.5) = true →
       zoneId previous = zoneId reading →
       energyKw previous = 0 →
       detectAnomaly reading (Some previous) = None).
Proof.
  intros H.
  specialize (H (reading_of "warehouse" 30) (reading_of "warehouse" 0)
                {| min := 20; max := 40 |}).
  vm_compute in H. discriminate H; reflexivity.
Qed.

(** C4, amended: a reading within the threshold bounds whose previous reading
    for the same zone has energy exactly 0 is divided by that zero; the
    percent change is [+Infinity], and the detector returns an anomaly of
    type spike and severity critical whose threshold is the previous
    energy, a zero. *)
Theorem detectAnomaly_zero_previous
    (reading previous : EnergyReading.t) (range : ZoneRange) :
  ZONE_RANGES !! zoneId reading = Some range →
  (energyKw reading <=? max range * 1.5) = true →
  (energyKw reading >=? min range * 0.5) = true →
  zoneId previous = zoneId reading →
  (energyKw previous =? 0) = true →
  abs ((energyKw reading - energyKw previous) / energyKw previous) = infinity ∧
  ∃ a,
    detectAnomaly reading (Some previous) = Some a ∧
    Anomaly.type a = AnomalyType.spike ∧
    Anomaly.severity a = critical ∧
    Anomaly.threshold a = energyKw previous ∧
    (Anomaly.threshold a =? 0) = true ∧
    Anomaly.value a = energyKw reading ∧
    Anomaly.zoneId a = zoneId reading.
Proof.
  intros Hrange Hle Hge Hzone Hzero.
  destruct (eqb_zero_inv _ Hzero) as [s Hp].
  destruct (drop_threshold_positive _ _ Hrange) as (m & ex & Hc).
  pose proof (geb_pos_finite_inv _ _ _ _ Hc Hge) as He.
  destruct (abs_div_zero _ _ _ Hp He) as [Hpct Hgt].
  split; [exact Hpct|].
  rewrite (detectAnomaly_pattern_rule reading previous range Hrange
             (leb_true_gtb_false _ _ Hle) (geb_true_ltb_false _ _ Hge) Hzone).
  cbv zeta. unfold percentChange. rewrite Hpct, Hgt.
  eexists. split; [reflexivity|].
  cbn [createAnomaly Anomaly.type Anomaly.threshold Anomaly.severity
       Anomaly.value Anomaly.zoneId].
  split_and!; done.
Qed.

Lemma detectAnomaly_zero_previous_witness :
  abs ((30 - 0) / 0) = infinity ∧
  ∃ a,
    detectAnomaly (reading_of "warehouse" 30) (Some (reading_of "warehouse" 0)) = Some a ∧
    Anomaly.type a = AnomalyType.spike ∧
    Anomaly.severity a = critical ∧
    Anomaly.threshold a = 0 ∧
    (Anomaly.threshold a =? 0) = true ∧
    Anomaly.value a = 30 ∧
    Anomaly.zoneId a = "warehouse"%string.
Proof.
  apply (detectAnomaly_zero_previous (reading_of "warehouse" 30)
           (reading_of "warehouse" 0) {| min := 20; max := 40 |});
    vm_compute; reflexivity.
Defined.

End DetectorFacts.

(** ** The comparison function *)

Section ComparisonFacts.

Local Open Scope float_scope.
Import HistoricalData.

(** C6: the percentage is 0 for a zero baseline and
    [(current - baseline) / baseline * 100] otherwise; the status is normal
    exactly when [|percentage| < 10], and otherwise above when the
    percentage is positive and below when it is not; [compare(110, 100)]
    is percentage 10 with status above. *)
Theorem compare_percentage_status (current baseline : float) :
  let percentage := fst (compare current baseline) in
  let status := snd (compare current baseline) in
  percentage = calculatePercentageDiff current baseline ∧
  status = getComparisonStatus percentage ∧
  ((baseline =? 0) = true → percentage = 0) ∧
  ((baseline =? 0) = false → percentage = (current - baseline) / baseline * 100) ∧
  (status = normal ↔ (abs percentage <? 10) = true) ∧
  (status = above ↔ (abs percentage <? 10) = false ∧ (percentage >? 0) = true) ∧
  (status = below ↔ (abs percentage <? 10) = false ∧ (percentage >? 0) = false) ∧
  compare 110 100 = (10, above).
Proof.
  cbv zeta. unfold compare. cbn [fst snd].
  split; [reflexivity|]. split; [reflexivity|].
  unfold calculatePercentageDiff at 1 2.
  split; [by intros ->|]. split; [by intros ->|].
  unfold getComparisonStatus.
  set (p := calculatePercentageDiff current baseline).
  repeat split;
    destruct (abs p <? 10); destruct (p >? 0); try intros [? ?]; congruence.
Qed.

End ComparisonFacts.

(** ** The reconnect policy *)

Section ReconnectFacts.

Import UseWebSocket.

(** The earlier revision's table is the capped doubling. *)
Lemma table_delay_capped (n : nat) :
  table_delay n = Z.min (1000 * 2 ^ Z.of_nat n) 16000.
Proof.
  do 5 (destruct n as [|n]; [reflexivity|]).
  unfold table_delay. replace (Nat.min _ _) with 4 by (simpl; lia).
  cbn [nth delays].
  assert (2 ^ 5 ≤ 2 ^ Z.of_nat (S (S (S (S (S n))))))%Z
    by (apply Z.pow_le_mono_r; lia).
  lia.
Qed.

(** Up to the retry ceiling the uncapped doubling stays under the cap. *)
Lemma backoff_delay_capped (n : nat) :
  n < MAX_RECONNECT →
  backoff_delay n = Z.min (1000 * 2 ^ Z.of_nat n) 16000.
Proof.
  unfold MAX_RECONNECT, backoff_delay. intros Hn.
  do 5 (destruct n as [|n]; [reflexivity|]). lia.
Qed.

(** The handlers other than close and open leave the counters alone. *)
Lemma step_other (st : State) (ev : Event) :
  ev ≠ Open → ev ≠ Unmount → ev ≠ Close → isMounted st = true →
  (step st ev).2 = None ∧
  isMounted (step st ev).1 = true ∧
  reconnectAttemptsRef (step st ev).1 = reconnectAttemptsRef st ∧
  attempts (step st ev).1 = attempts st.
Proof.
  intros Ho Hu Hc Hm. destruct ev; try done; cbn [step fst snd].
  - unfold onerror. by rewrite Hm.
  - unfold ontimer. by rewrite Hm.
Qed.

(** A close event below the ceiling counts one attempt and schedules the
    doubling; at the ceiling it schedules nothing. *)
Lemma step_close (st : State) :
  isMounted st = true →
  isMounted (step st Close).1 = true ∧
  if decide (reconnectAttemptsRef st < MAX_RECONNECT) then
    (step st Close).2 = Some (backoff_delay (reconnectAttemptsRef st)) ∧
    reconnectAttemptsRef (step st Close).1 = S (reconnectAttemptsRef st) ∧
    attempts (step st Close).1 = S (reconnectAttemptsRef st)
  else
    (step st Close).2 = None ∧
    reconnectAttemptsRef (step st Close).1 = reconnectAttemptsRef st ∧
    attempts (step st Close).1 = attempts st.
Proof.
  intros Hm. cbn [step]. unfold onclose. rewrite Hm. cbn [negb].
  case_decide as Hlt.
  - apply Nat.ltb_lt in Hlt. by rewrite Hlt.
  - apply Nat.ltb_nlt in Hlt. by rewrite Hlt.
Qed.

(** The run of a sequence of events with no open event, from a mounted
    state whose two counters agree: the counter grows by the number of
    closes up to the ceiling, and the delays scheduled are the doublings from
    the counter's old value. *)
Lemma run_no_open (evs : list Event) (st : State) :
  no_open evs → isMounted st = true →
  attempts st = reconnectAttemptsRef st →
  reconnectAttemptsRef st ≤ MAX_RECONNECT →
  let n := Nat.min (reconnectAttemptsRef st + count_closes evs) MAX_RECONNECT in
  isMounted (run st evs).1 = true ∧
  reconnectAttemptsRef (run st evs).1 = n ∧
  attempts (run st evs).1 = n ∧
  (run st evs).2 =
    backoff_delay <$> seq (reconnectAttemptsRef st) (n - reconnectAttemptsRef st).
Proof.
  unfold count_closes.
  revert st. induction evs as [|ev evs IH]; intros st Hno Hm Ha Hle.
  - cbn. replace (_ - _) with 0 by lia. repeat split; try done; lia.
  - apply Forall_cons in Hno as [[Hopen Hun] Hno].
    cbn [run]. destruct (decide (ev = Close)) as [->|Hc].
    + rewrite filter_cons_True by done. cbn [length].
      destruct (step_close st Hm) as [Hm' Hstep].
      destruct (step st Close) as [st1 d]. cbn [fst snd] in *.
      specialize (IH st1 Hno Hm').
      destruct (run st1 evs) as [st' ds]. cbn [fst snd] in *.
      unfold MAX_RECONNECT in *.
      case_decide as Hlt.
      * destruct Hstep as (-> & Hr & Hat). rewrite Hr, Hat in IH.
        destruct (IH eq_refl ltac:(lia)) as (I1 & I2 & I3 & I4).
        split; [done|]. split; [rewrite I2; lia|]. split; [rewrite I3; lia|].
        rewrite I4.
        replace (Nat.min (reconnectAttemptsRef st + S _) 5 - reconnectAttemptsRef st)
          with (S (Nat.min (S (reconnectAttemptsRef st)
                            + length (filter (λ ev, ev = Close) evs)) 5
                   - S (reconnectAttemptsRef st))) by lia.
        reflexivity.
      * destruct Hstep as (-> & Hr & Hat). rewrite Hr, Hat in IH.
        destruct (IH Ha Hle) as (I1 & I2 & I3 & I4).
        split; [done|]. split; [rewrite I2; lia|]. split; [rewrite I3; lia|].
        rewrite I4. f_equal. f_equal. lia.
    + rewrite filter_cons_False by done.
      destruct (step_other st ev Hopen Hun Hc Hm) as (Hd & Hm' & Hr & Hat).
      destruct (step st ev) as [st1 d]. cbn [fst snd] in *. subst d.
      specialize (IH st1 Hno Hm'). rewrite Hr, Hat in IH.
      specialize (IH Ha Hle).
      destruct (run st1 evs) as [st' ds]. exact IH.
Qed.

(** C8, as the claim states it, fails: at the sixth consecutive close the
    ceiling of five attempts has been reached, so the counter stays at 5. *)
Lemma reconnect_counter_counterexample :
  ¬ (∀ N : nat,
       attempts (run initial (closes N)).1 = N ∧
       ∀ k : nat, 1 ≤ k ≤ N →
         (run initial (closes N)).2 !! (k - 1) =
           Some (Z.min (1000 * 2 ^ (Z.of_nat k - 1)) 16000)).
Proof.
  intros H. destruct (H 6) as [H6 _]. vm_compute in H6. discriminate H6.
Qed.

(** C8, amended: after N consecutive close events with no open event in
    between, from a state in which no attempt is counted, the counter is
    [min N 5]; a retry is scheduled at the k-th close exactly for
    [k <= min N 5], with delay [1000 * 2^(k-1)], which is
    [min (1000 * 2^(k-1)) 16000]; an open event resets the counter to 0. *)
Theorem reconnect_backoff (st : State) (evs : list Event) :
  fresh st → no_open evs →
  let N := count_closes evs in
  let n := Nat.min N MAX_RECONNECT in
  attempts (run st evs).1 = n ∧
  reconnectAttemptsRef (run st evs).1 = n ∧
  length (run st evs).2 = n ∧
  (∀ k : nat, 1 ≤ k ≤ n →
     (run st evs).2 !! (k - 1) = Some (1000 * 2 ^ (Z.of_nat k - 1))%Z ∧
     (run st evs).2 !! (k - 1) = Some (Z.min (1000 * 2 ^ (Z.of_nat k - 1)) 16000)) ∧
  fresh (step (run st evs).1 Open).1 ∧
  status (step (run st evs).1 Open).1 = CONNECTED.
Proof.
  intros (Hm & Ha & Hr) Hno N n.
  destruct (run_no_open evs st Hno Hm ltac:(congruence)
              ltac:(rewrite Hr; unfold MAX_RECONNECT; lia))
    as (I1 & I2 & I3 & I4).
  rewrite Hr in I2, I3, I4. cbn [Nat.add] in I2, I3, I4.
  rewrite Nat.sub_0_r in I4. fold N in I2, I3, I4. fold n in I2, I3, I4.
  split; [done|]. split; [done|].
  split; [by rewrite I4, length_fmap, length_seq|].
  split.
  - intros k Hk. rewrite I4, list_lookup_fmap, lookup_seq_lt by lia.
    cbn [fmap option_fmap option_map Nat.add].
    assert (Hlt : k - 1 < MAX_RECONNECT) by (unfold n in Hk; lia).
    replace (Z.of_nat k - 1)%Z with (Z.of_nat (k - 1)) by lia.
    split; [reflexivity|]. f_equal. by apply backoff_delay_capped.
  - cbn [step fst]. unfold onopen, fresh. by rewrite I1.
Qed.

Lemma reconnect_backoff_witness :
  attempts (run initial (closes 3)).1 = 3 ∧
  reconnectAttemptsRef (run initial (closes 3)).1 = 3 ∧
  length (run initial (closes 3)).2 = 3 ∧
  (∀ k : nat, 1 ≤ k ≤ 3 →
     (run initial (closes 3)).2 !! (k - 1) = Some (1000 * 2 ^ (Z.of_nat k - 1))%Z ∧
     (run initial (closes 3)).2 !! (k - 1) = Some (Z.min (1000 * 2 ^ (Z.of_nat k - 1)) 16000)) ∧
  fresh (step (run initial (closes 3)).1 Open).1 ∧
  status (step (run initial (closes 3)).1 Open).1 = CONNECTED.
Proof.
  apply (reconnect_backoff initial (closes 3)).
  - vm_compute. auto.
  - unfold no_open. cbn [closes]. repeat constructor; discriminate.
Defined.

End ReconnectFacts.

(** ** The bounded history store *)

Section HistoryFacts.

Import EnergyReading EnergyContext Samples.

Lemma window_handleMessage (st : State) (reading : EnergyReading.t) (zone : string) :
  window (handleMessage st reading) zone =
    if decide (zoneId reading = zone)
    then window_push (window st zone) reading
    else window st zone.
Proof.
  unfold window, handleMessage. cbn [readings].
  rewrite lookup_insert. case_decide; by subst.
Qed.

(** Pushing onto the last [C] elements of a sequence gives the last [C]
    elements of the extended sequence. *)
Lemma window_push_slice_last (history : list EnergyReading.t) (reading : EnergyReading.t) :
  window_push (slice_last MAX_READINGS_PER_ZONE history) reading =
    slice_last MAX_READINGS_PER_ZONE (history ++ [reading]).
Proof.
  unfold window_push, slice_last, MAX_READINGS_PER_ZONE.
  rewrite !length_app, length_drop. cbn [length].
  destruct (Nat.ltb_spec 1500 (length history - (length history - 1500) + 1))
    as [Hfull|Hroom].
  - replace (tail (drop (length history - 1500) history ++ [reading]))
      with (drop 1 (drop (length history - 1500) history ++ [reading]))
      by (by destruct (drop _ history ++ [reading])).
    rewrite drop_app_le by (rewrite length_drop; lia).
    rewrite drop_drop, drop_app_le by lia.
    do 2 f_equal. lia.
  - replace (length history - 1500) with 0 by lia.
    replace (length history + 1 - 1500) with 0 by lia. reflexivity.
Qed.

(** A zone's window is the last [C] readings ingested for that zone. *)
Lemma window_ingest (msgs : list EnergyReading.t) (zone : string) :
  window (ingest msgs) zone =
    slice_last MAX_READINGS_PER_ZONE (zone_history msgs zone).
Proof.
  induction msgs as [|reading msgs IH] using rev_ind; [reflexivity|].
  unfold ingest. rewrite fold_left_app. cbn [fold_left]. fold (ingest msgs).
  rewrite window_handleMessage, IH.
  unfold zone_history. rewrite filter_app.
  case_decide.
  - rewrite filter_cons_True, filter_nil by done. apply window_push_slice_last.
  - rewrite filter_cons_False, filter_nil, app_nil_r by done. reflexivity.
Qed.

(** C5: a zone's window never holds more than 1500 readings; eviction is
    FIFO, so once 1501 readings have been appended to a zone the window
    starts at the second of them; and the window ends with the reading most
    recently ingested for the zone. *)
Theorem history_window_bounded_fifo (msgs : list EnergyReading.t) (zone : string) :
  MAX_READINGS_PER_ZONE = 1500 ∧
  length (window (ingest msgs) zone) ≤ MAX_READINGS_PER_ZONE ∧
  (length (zone_history msgs zone) = S MAX_READINGS_PER_ZONE →
   window (ingest msgs) zone = drop 1 (zone_history msgs zone) ∧
   head (window (ingest msgs) zone) = zone_history msgs zone !! 1) ∧
  last (window (ingest msgs) zone) = last (zone_history msgs zone) ∧
  (∀ reading : EnergyReading.t,
     last (window (ingest (msgs ++ [reading])) (zoneId reading)) = Some reading).
Proof.
  split; [reflexivity|].
  assert (Hlast : ∀ l : list EnergyReading.t,
             last (slice_last MAX_READINGS_PER_ZONE l) = last l).
  { intros l. unfold slice_last, MAX_READINGS_PER_ZONE.
    rewrite !last_lookup, lookup_drop, length_drop.
    destruct (decide (length l = 0)) as [E|E].
    - apply length_zero_iff_nil in E. by subst.
    - f_equal. lia. }
  rewrite !window_ingest.
  split; [unfold slice_last; rewrite length_drop; lia|].
  split.
  - intros Hlen. unfold slice_last. rewrite Hlen.
    replace (S MAX_READINGS_PER_ZONE - MAX_READINGS_PER_ZONE) with 1 by lia.
    split; [reflexivity|].
    rewrite head_lookup, lookup_drop. reflexivity.
  - split; [apply Hlast|].
    intros reading. rewrite window_ingest, Hlast.
    unfold zone_history. rewrite filter_app, filter_cons_True, filter_nil by done.
    apply last_snoc.
Qed.

Lemma history_window_bounded_fifo_witness :
  window (ingest (burst "warehouse" 1501)) "warehouse" =
    drop 1 (zone_history (burst "warehouse" 1501) "warehouse") ∧
  head (window (ingest (burst "warehouse" 1501)) "warehouse") =
    zone_history (burst "warehouse" 1501) "warehouse" !! 1.
Proof.
  apply (history_window_bounded_fifo (burst "warehouse" 1501) "warehouse").
  vm_compute. reflexivity.
Defined.

End HistoryFacts.

(** ** The baseline engine *)

Section BaselineFacts.

Local Open Scope float_scope.
Import EnergyReading HistoricalData Samples.

Lemma group_step_lookup (zoneData : gmap string (list float))
    (reading : EnergyReading.t) (zone : string) :
  group_step zoneData reading !! zone =
    if decide (zoneId reading = zone)
    then Some (default [] (zoneData !! zone) ++ [energyKw reading])
    else zoneData !! zone.
Proof.
  unfold group_step.
  destruct (zoneData !! zoneId reading) as [values|] eqn:E;
    rewrite lookup_alter; case_decide as Hz; try done.
  - subst zone. by rewrite E.
  - subst zone. by rewrite lookup_insert_eq, E.
  - by rewrite lookup_insert_ne.
Qed.

(** The grouping loop collects, for each zone, the zone's values in corpus
    order behind what the map already held. *)
Lemma group_fold_lookup (corpus : list EnergyReading.t)
    (zoneData : gmap string (list float)) (zone : string) :
  fold_left group_step corpus zoneData !! zone =
    match zone_values corpus zone with
    | [] => zoneData !! zone
    | values => Some (default [] (zoneData !! zone) ++ values)
    end.
Proof.
  revert zoneData. unfold zone_values.
  induction corpus as [|reading corpus IH]; intros zoneData; [done|].
  cbn [fold_left]. rewrite IH, group_step_lookup.
  destruct (decide (zoneId reading = zone)) as [Hz|Hz].
  - rewrite filter_cons_True by done. rewrite fmap_cons.
    destruct (energyKw <$> filter (λ r, zoneId r = zone) corpus);
      [done|]. cbn. by rewrite <- app_assoc.
  - by rewrite filter_cons_False by done.
Qed.

Lemma zone_data_lookup (corpus : list EnergyReading.t) (zone : string) :
  fold_left group_step corpus ∅ !! zone =
    match zone_values corpus zone with
    | [] => None
    | values => Some values
    end.
Proof.
  rewrite group_fold_lookup, lookup_empty. by destruct (zone_values corpus zone).
Qed.

(** Within the argument limit the statistics are computed; beyond it the
    spread call throws. *)
Lemma baseline_of_within (limit : nat) (corpus : list EnergyReading.t)
    (zone : string) (values : list float) :
  length values ≤ limit →
  baseline_of limit corpus zone values =
    Some {| HistoricalBaseline.zoneId := zone;
            HistoricalBaseline.zoneName := zone_name_of corpus zone;
            HistoricalBaseline.avgEnergyKw := arithmetic_mean values;
            HistoricalBaseline.minEnergyKw := Number.Math_min values;
            HistoricalBaseline.maxEnergyKw := Number.Math_max values;
            HistoricalBaseline.dataPoints := length values |}.
Proof.
  intros Hle. unfold baseline_of, Number.spread.
  apply Nat.ltb_ge in Hle. by rewrite Hle.
Qed.

Lemma baseline_of_over (limit : nat) (corpus : list EnergyReading.t)
    (zone : string) (values : list float) :
  limit < length values → baseline_of limit corpus zone values = None.
Proof.
  intros Hlt. unfold baseline_of, Number.spread.
  apply Nat.ltb_lt in Hlt. by rewrite Hlt.
Qed.

Lemma baseline_of_Some_inv (limit : nat) (corpus : list EnergyReading.t)
    (zone : string) (values : list float) (b : HistoricalBaseline.t) :
  baseline_of limit corpus zone values = Some b →
  length values ≤ limit ∧
  HistoricalBaseline.zoneName b = zone_name_of corpus zone ∧
  HistoricalBaseline.dataPoints b = length values.
Proof.
  destruct (decide (length values ≤ limit)) as [Hle|Hgt].
  - rewrite baseline_of_within by done. by intros [= <-].
  - rewrite baseline_of_over by lia. done.
Qed.

(** The second loop over any map of groups: it ends with a map exactly
    when no turn throws, and that map holds each group's statistics. *)
Lemma baselines_loop (limit : nat) (corpus : list EnergyReading.t)
    (zoneData : gmap string (list float)) :
  (map_Forall (λ zone values, is_Some (baseline_of limit corpus zone values)) zoneData →
   ∃ baselines,
     map_fold (baselines_step limit corpus) (Some ∅) zoneData = Some baselines ∧
     ∀ zone, baselines !! zone = zoneData !! zone ≫= baseline_of limit corpus zone) ∧
  (¬ map_Forall (λ zone values, is_Some (baseline_of limit corpus zone values)) zoneData →
   map_fold (baselines_step limit corpus) (Some ∅) zoneData = None).
Proof.
  apply (map_fold_weak_ind
           (λ r m,
              (map_Forall (λ zone values, is_Some (baseline_of limit corpus zone values)) m →
               ∃ baselines, r = Some baselines ∧
                 ∀ zone, baselines !! zone = m !! zone ≫= baseline_of limit corpus zone) ∧
              (¬ map_Forall (λ zone values, is_Some (baseline_of limit corpus zone values)) m →
               r = None))).
  - split.
    + intros _. exists ∅. split; [done|]. intros zone. by rewrite !lookup_empty.
    + intros H. destruct H. apply map_Forall_empty.
  - intros i x m r Hi [IH1 IH2]. split.
    + intros Hall. apply map_Forall_insert in Hall as [[b Hb] Hall]; [|done].
      destruct (IH1 Hall) as (baselines & -> & Hlook).
      unfold baselines_step. rewrite Hb. eexists. split; [done|].
      intros zone. destruct (decide (i = zone)) as [->|Hne].
      * by rewrite !lookup_insert_eq.
      * by rewrite !lookup_insert_ne.
    + intros Hnot. unfold baselines_step.
      destruct r as [baselines|]; [|done].
      destruct (baseline_of limit corpus i x) as [b|] eqn:Hb; [|done].
      exfalso. assert (Hm : ¬ map_Forall
        (λ zone values, is_Some (baseline_of limit corpus zone values)) m).
      { intros Hall. apply Hnot. apply map_Forall_insert; [done|].
        split; [by rewrite Hb|done]. }
      by specialize (IH2 Hm).
Qed.

(** A corpus with a zone over the argument limit makes the function throw. *)
Lemma calculateBaselines_over (limit : nat) (corpus : list EnergyReading.t)
    (zone : string) :
  limit < length (zone_values corpus zone) →
  calculateBaselines limit corpus = None.
Proof.
  intros Hlt. unfold calculateBaselines.
  apply (baselines_loop limit corpus). intros Hall.
  pose proof (zone_data_lookup corpus zone) as Hz.
  destruct (zone_values corpus zone) as [|v values] eqn:E; [cbn in Hlt; lia|].
  specialize (Hall zone (v :: values) Hz). cbv beta in Hall.
  rewrite baseline_of_over in Hall by done. by destruct Hall.
Qed.

(** A result, when there is one, holds each zone's statistics. *)
Lemma calculateBaselines_Some_lookup (limit : nat) (corpus : list EnergyReading.t)
    (baselines : gmap string HistoricalBaseline.t) (zone : string) :
  calculateBaselines limit corpus = Some baselines →
  baselines !! zone =
    match zone_values corpus zone with
    | [] => None
    | values => baseline_of limit corpus zone values
    end.
Proof.
  unfold calculateBaselines. intros H.
  destruct (baselines_loop limit corpus (fold_left group_step corpus ∅)) as [H1 H2].
  destruct (decide (map_Forall
              (λ zone values, is_Some (baseline_of limit corpus zone values))
              (fold_left group_step corpus ∅))) as [Hall|Hnot].
  - destruct (H1 Hall) as (baselines' & Heq & Hlook).
    rewrite H in Heq. injection Heq as <-.
    rewrite Hlook, zone_data_lookup. by destruct (zone_values corpus zone).
  - rewrite (H2 Hnot) in H. done.
Qed.

(** A corpus with every zone within the argument limit gives a result. *)
Lemma calculateBaselines_within (limit : nat) (corpus : list EnergyReading.t) :
  (∀ zone, length (zone_values corpus zone) ≤ limit) →
  is_Some (calculateBaselines limit corpus).
Proof.
  intros Hle. unfold calculateBaselines.
  destruct (baselines_loop limit corpus (fold_left group_step corpus ∅)) as [H1 _].
  destruct H1 as (baselines & -> & _); [|done].
  intros zone values Hz. cbv beta.
  rewrite zone_data_lookup in Hz. specialize (Hle zone).
  destruct (zone_values corpus zone) as [|v vs]; [done|].
  injection Hz as <-. by rewrite baseline_of_within.
Qed.

(** A result means that every zone was within the argument limit. *)
Lemma calculateBaselines_Some_within (limit : nat) (corpus : list EnergyReading.t)
    (baselines : gmap string HistoricalBaseline.t) (zone : string) :
  calculateBaselines limit corpus = Some baselines →
  length (zone_values corpus zone) ≤ limit.
Proof.
  intros H. destruct (decide (length (zone_values corpus zone) ≤ limit)) as [|Hgt];
    [done|].
  rewrite (calculateBaselines_over limit corpus zone) in H by lia. done.
Qed.

(** C7 at a zone with more readings than the engine takes as spread
    arguments: [Math.min(...energyValues)] throws, and the function yields no
    baselines at all. *)
Theorem calculateBaselines_spread_overflow (limit : nat)
    (corpus : list EnergyReading.t) (zone : string) :
  limit < length (zone_values corpus zone) →
  calculateBaselines limit corpus = None.
Proof. apply calculateBaselines_over. Qed.

Lemma calculateBaselines_spread_overflow_witness :
  calculateBaselines 1 corpus_a = None.
Proof.
  apply (calculateBaselines_spread_overflow 1 corpus_a "a").
  vm_compute. lia.
Defined.

(** X25: for a corpus in which no zone has more readings than the engine
    takes as spread arguments, the baselines group the corpus by zone; a
    zone with readings gets the arithmetic mean, the minimum, the maximum and
    the number of its energy values, and a zone without readings gets
    nothing; a single reading is its own minimum, maximum and mean.  The
    empty corpus gives the empty map, and the corpus of 10 and 20 in zone [a]
    gives 15, 10, 20 and 2. *)
Theorem calculateBaselines_statistics (limit : nat) (corpus : list EnergyReading.t) :
  ((∀ zone, length (zone_values corpus zone) ≤ limit) →
   ∃ baselines,
     calculateBaselines limit corpus = Some baselines ∧
     ∀ zone,
       let values := zone_values corpus zone in
       (values = [] → baselines !! zone = None) ∧
       (values ≠ [] →
        ∃ b, baselines !! zone = Some b ∧
             HistoricalBaseline.zoneId b = zone ∧
             HistoricalBaseline.avgEnergyKw b = arithmetic_mean values ∧
             HistoricalBaseline.minEnergyKw b = Number.Math_min values ∧
             HistoricalBaseline.maxEnergyKw b = Number.Math_max values ∧
             HistoricalBaseline.dataPoints b = length values ∧
             (Forall (λ v, is_nan v = false) values →
              is_minimum (HistoricalBaseline.minEnergyKw b) values ∧
              is_maximum (HistoricalBaseline.maxEnergyKw b) values)) ∧
       (∀ x : float, values = [x] →
        ∃ b, baselines !! zone = Some b ∧
             HistoricalBaseline.minEnergyKw b = x ∧
             HistoricalBaseline.maxEnergyKw b = x ∧
             Number.sameValueZero (HistoricalBaseline.avgEnergyKw b) x = true ∧
             HistoricalBaseline.dataPoints b = 1%nat)) ∧
  calculateBaselines limit [] = Some ∅ ∧
  (2 ≤ limit →
   ∃ baselines b,
     calculateBaselines limit corpus_a = Some baselines ∧
     baselines !! "a"%string = Some b ∧
     HistoricalBaseline.avgEnergyKw b = 15 ∧
     HistoricalBaseline.minEnergyKw b = 10 ∧
     HistoricalBaseline.maxEnergyKw b = 20 ∧
     HistoricalBaseline.dataPoints b = 2%nat).
Proof.
  split; [|split].
  - intros Hle. destruct (calculateBaselines_within limit corpus Hle) as [baselines Hb].
    exists baselines. split; [done|]. intros zone values.
    rewrite (calculateBaselines_Some_lookup limit corpus baselines zone Hb).
    fold values. specialize (Hle zone). fold values in Hle.
    split; [by intros ->|]. split.
    + intros Hne. destruct values as [|v values'] eqn:E; [done|].
      rewrite baseline_of_within by done.
      eexists. split; [reflexivity|].
      cbn [HistoricalBaseline.zoneId HistoricalBaseline.avgEnergyKw
           HistoricalBaseline.minEnergyKw HistoricalBaseline.maxEnergyKw
           HistoricalBaseline.dataPoints].
      do 5 (split; [reflexivity|]). intros Hnn.
      split; [by apply Math_min_is_minimum | by apply Math_max_is_maximum].
    + intros x Hx. rewrite Hx in Hle |- *. rewrite baseline_of_within by done.
      eexists. split; [reflexivity|].
      cbn [HistoricalBaseline.zoneId HistoricalBaseline.avgEnergyKw
           HistoricalBaseline.minEnergyKw HistoricalBaseline.maxEnergyKw
           HistoricalBaseline.dataPoints].
      split; [apply Math_min_singleton|]. split; [apply Math_max_singleton|].
      split; [apply arithmetic_mean_singleton|done].
  - unfold calculateBaselines. cbn [fold_left]. by rewrite map_fold_empty.
  - intros Hlimit.
    assert (Hle : ∀ zone, length (zone_values corpus_a zone) ≤ limit).
    { intros zone. unfold zone_values. rewrite length_fmap.
      etrans; [apply length_filter|]. cbn. lia. }
    destruct (calculateBaselines_within limit corpus_a Hle) as [baselines Hb].
    exists baselines. eexists. split; [done|].
    rewrite (calculateBaselines_Some_lookup limit corpus_a baselines "a" Hb).
    change (zone_values corpus_a "a") with [10; 20]. cbv beta iota.
    rewrite baseline_of_within by (cbn; lia).
    split; [reflexivity|]. vm_compute. done.
Qed.

Lemma calculateBaselines_statistics_witness :
  ∃ baselines b,
    calculateBaselines 1000 corpus_a = Some baselines ∧
    baselines !! "a"%string = Some b ∧
    HistoricalBaseline.avgEnergyKw b = 15 ∧
    HistoricalBaseline.minEnergyKw b = 10 ∧
    HistoricalBaseline.maxEnergyKw b = 20 ∧
    HistoricalBaseline.dataPoints b = 2%nat.
Proof.
  apply (proj2 (proj2 (calculateBaselines_statistics 1000 corpus_a))). lia.
Defined.

End BaselineFacts.

(** * Further properties *)

(** ** More binary64 facts *)

Section MoreNumberFacts.

Local Open Scope float_scope.

Lemma is_nan_true (a : float) : is_nan a = true ↔ Prim2SF a = S754_nan.
Proof.
  pose proof (is_nan_false a) as H.
  destruct (is_nan a) eqn:E.
  - split; [intros _|done].
    destruct (Prim2SF a) eqn:Ha; [| |done|];
      (assert (true = false) by (by apply H); done).
  - split; [done|]. intros Hn. by apply H in Hn.
Qed.

(** Every comparison with NaN is false. *)
Lemma nan_compare_false (a b : float) :
  is_nan a = true →
  (a <? b) = false ∧ (b <? a) = false ∧ (a <=? b) = false ∧ (b <=? a) = false.
Proof.
  intros Ha. apply is_nan_true in Ha.
  rewrite !ltb_spec, !leb_spec, Ha. unfold SFltb, SFleb.
  by destruct (Prim2SF b).
Qed.

(** NaN propagates through the percent change and through the percentage
    difference. *)
Lemma percentChange_nan (e p : float) :
  is_nan e = true → is_nan (AnomalyDetection.percentChange e p) = true.
Proof.
  intros He. apply is_nan_true in He. apply is_nan_true.
  unfold AnomalyDetection.percentChange.
  rewrite abs_spec, div_spec, sub_spec, He.
  by destruct (Prim2SF p).
Qed.

Lemma percentage_nan (c b : float) :
  is_nan c = true → is_nan ((c - b) / b * 100) = true.
Proof.
  intros Hc. apply is_nan_true in Hc. apply is_nan_true.
  rewrite mul_spec, div_spec, sub_spec, Hc.
  by destruct (Prim2SF b).
Qed.

(** A finite number minus itself is [+0]. *)
Lemma SFsub_diag (s : bool) (m : positive) (e : Z) :
  SF64sub (S754_finite s m e) (S754_finite s m e) = S754_zero false.
Proof.
  unfold SF64sub, SFsub. by rewrite Z.sub_diag.
Qed.

(** A number at or below a finite number is not [+Infinity]. *)
Lemma leb_finite_not_infinity (e c : float) (s : bool) (m : positive) (ex : Z) :
  Prim2SF c = S754_finite s m ex → (e <=? c) = true →
  Prim2SF e ≠ S754_infinity false.
Proof.
  intros Hc. rewrite leb_spec, Hc. unfold SFleb. intros H He.
  rewrite He in H. by destruct s.
Qed.

(** The percent change from a positive finite number to itself is [+0]. *)
Lemma percentChange_diag (p : float) (m : positive) (e : Z) :
  Prim2SF p = S754_finite false m e →
  AnomalyDetection.percentChange p p = 0.
Proof.
  intros Hp. apply Prim2SF_inj. unfold AnomalyDetection.percentChange.
  rewrite abs_spec, div_spec, sub_spec, Hp, SFsub_diag. reflexivity.
Qed.

(** A finite number is a zero or has a mantissa. *)
Lemma is_finite_inv (b : float) :
  is_finite b = true →
  (∃ s, Prim2SF b = S754_zero s) ∨ (∃ s m e, Prim2SF b = S754_finite s m e).
Proof.
  unfold is_finite, is_infinity. intros H.
  apply negb_true_iff, orb_false_iff in H as [Hn Hi].
  apply is_nan_false in Hn.
  rewrite FloatAxioms.eqb_spec, abs_spec in Hi.
  destruct (Prim2SF b) as [s|s| |s m e]; [eauto| |done|eauto 6].
  by destruct s.
Qed.

(** The percentage difference of a finite nonzero number from itself is a
    zero. *)
Lemma percentage_diag (b : float) :
  is_finite b = true → (b =? 0) = false →
  ∃ s, Prim2SF ((b - b) / b * 100) = S754_zero s.
Proof.
  intros Hf Hnz.
  destruct (is_finite_inv b Hf) as [[s Hb]|(s & m & e & Hb)].
  - rewrite FloatAxioms.eqb_spec, Hb in Hnz. by destruct s.
  - rewrite mul_spec, div_spec, sub_spec, Hb, SFsub_diag.
    change (Prim2SF 100) with (S754_finite false 7036874417766400 (-46)).
    destruct s; eauto.
Qed.

End MoreNumberFacts.

(** ** The detector at its edges *)

Section DetectorEdgeFacts.

Local Open Scope float_scope.
Import EnergyReading AnomalyDetection Samples.

(** Every anomaly is built by [createAnomaly] from the reading, for a zone
    id that the range lookup resolves. *)
Lemma detectAnomaly_Some_inv
    (reading : EnergyReading.t) (previous : option EnergyReading.t) (a : Anomaly.t) :
  detectAnomaly reading previous = Some a →
  is_Some (ZONE_RANGES_get (zoneId reading)) ∧
  ∃ type threshold severity, a = createAnomaly reading type threshold severity.
Proof.
  unfold detectAnomaly.
  destruct (ZONE_RANGES_get (zoneId reading)) as [range|]; [|done].
  intros H. split; [done|]. revert H.
  destruct (energyKw reading >? max range * 1.5); [intros [= <-]; eauto|].
  destruct (energyKw reading <? min range * 0.5); [intros [= <-]; eauto|].
  destruct previous as [previous|]; [|done].
  destruct (negb _); [done|]. cbv zeta.
  destruct (percentChange _ _ <=? 0.3); [done|]. intros [= <-]; eauto.
Qed.

(** Every registered zone's spike threshold is a positive finite number. *)
Lemma spike_threshold_finite (zone : string) (range : ZoneRange) :
  ZONE_RANGES !! zone = Some range →
  ∃ m ex, Prim2SF (max range * 1.5) = S754_finite false m ex.
Proof.
  intros H. apply ZONE_RANGES_inv in H.
  repeat (apply elem_of_cons in H as [-> | H];
          [vm_compute; eauto|]).
  by apply elem_of_nil in H.
Qed.

(** A reading within the bounds of its zone is a positive finite number. *)
Lemma in_bounds_finite (zone : string) (range : ZoneRange) (e : float) :
  ZONE_RANGES !! zone = Some range →
  (e <=? max range * 1.5) = true → (e >=? min range * 0.5) = true →
  ∃ m ex, Prim2SF e = S754_finite false m ex.
Proof.
  intros Hrange Hle Hge.
  destruct (drop_threshold_positive _ _ Hrange) as (m & ex & Hc).
  destruct (spike_threshold_finite _ _ Hrange) as (m' & ex' & Hc').
  destruct (geb_pos_finite_inv _ _ _ _ Hc Hge) as [Hinf|H]; [|done].
  by destruct (leb_finite_not_infinity _ _ _ _ _ Hc' Hle).
Qed.

(** A reading equal in energy to the previous reading of its zone, within
    the bounds, raises nothing. *)
Lemma detectAnomaly_same_energy
    (reading previous : EnergyReading.t) (range : ZoneRange) :
  ZONE_RANGES !! zoneId reading = Some range →
  (energyKw reading <=? max range * 1.5) = true →
  (energyKw reading >=? min range * 0.5) = true →
  zoneId previous = zoneId reading →
  energyKw previous = energyKw reading →
  detectAnomaly reading (Some previous) = None.
Proof.
  intros Hrange Hle Hge Hzone Henergy.
  destruct (in_bounds_finite _ _ _ Hrange Hle Hge) as (m & ex & He).
  rewrite (detectAnomaly_pattern_rule reading previous range Hrange
             (leb_true_gtb_false _ _ Hle) (geb_true_ltb_false _ _ Hge) Hzone).
  cbv zeta. rewrite Henergy, (percentChange_diag _ _ _ He). reflexivity.
Qed.

(** Without a previous reading, a reading within the bounds raises nothing. *)
Lemma detectAnomaly_no_previous_in_bounds
    (reading : EnergyReading.t) (range : ZoneRange) :
  ZONE_RANGES !! zoneId reading = Some range →
  (energyKw reading <=? max range * 1.5) = true →
  (energyKw reading >=? min range * 0.5) = true →
  detectAnomaly reading None = None.
Proof.
  intros Hrange Hle Hge. unfold detectAnomaly.
  by rewrite (ZONE_RANGES_get_own _ _ Hrange), (leb_true_gtb_false _ _ Hle),
       (geb_true_ltb_false _ _ Hge).
Qed.

(** X1: an anomaly repeats its reading: the range lookup resolves the zone
    id (to a registered range or to an inherited property), the id is the
    zone id and the timestamp joined by a dash, and zone id, zone name,
    timestamp and value are the reading's. *)
Theorem detectAnomaly_echoes_reading
    (reading : EnergyReading.t) (previous : option EnergyReading.t) (a : Anomaly.t) :
  detectAnomaly reading previous = Some a →
  (is_Some (ZONE_RANGES !! zoneId reading) ∨
   zoneId reading ∈ Object_prototype_keys) ∧
  Anomaly.id a = (zoneId reading +:+ "-" +:+ timestamp reading)%string ∧
  Anomaly.zoneId a = zoneId reading ∧
  Anomaly.zoneName a = zoneName reading ∧
  Anomaly.timestamp a = timestamp reading ∧
  Anomaly.value a = energyKw reading.
Proof.
  intros H. destruct (detectAnomaly_Some_inv _ _ _ H) as (Hreg & ty & th & sev & ->).
  split; [|done]. revert Hreg. unfold ZONE_RANGES_get.
  destruct (ZONE_RANGES !! zoneId reading) as [range|]; [by left|].
  case_bool_decide; [by right|]. by intros [? ?].
Qed.

Lemma detectAnomaly_echoes_reading_witness :
  (is_Some (ZONE_RANGES !! "warehouse"%string) ∨
   "warehouse"%string ∈ Object_prototype_keys) ∧
  Anomaly.id (createAnomaly (reading_of "warehouse" 61) AnomalyType.spike 60 warning) =
    "warehouse-2024-01-01T00:00:00.000Z"%string ∧
  Anomaly.zoneId (createAnomaly (reading_of "warehouse" 61) AnomalyType.spike 60 warning) =
    "warehouse"%string ∧
  Anomaly.zoneName (createAnomaly (reading_of "warehouse" 61) AnomalyType.spike 60 warning) =
    "warehouse"%string ∧
  Anomaly.timestamp (createAnomaly (reading_of "warehouse" 61) AnomalyType.spike 60 warning) =
    "2024-01-01T00:00:00.000Z"%string ∧
  Anomaly.value (createAnomaly (reading_of "warehouse" 61) AnomalyType.spike 60 warning) = 61.
Proof.
  apply (detectAnomaly_echoes_reading (reading_of "warehouse" 61) None).
  vm_compute. reflexivity.
Defined.

(** X2: a previous reading of another zone is not used: the result is the
    one obtained with no previous reading. *)
Theorem detectAnomaly_ignores_other_zone (reading previous : EnergyReading.t) :
  zoneId previous ≠ zoneId reading →
  detectAnomaly reading (Some previous) = detectAnomaly reading None.
Proof.
  intros Hz. apply String.eqb_neq in Hz. unfold detectAnomaly.
  rewrite Hz. cbn [negb].
  destruct (ZONE_RANGES_get (zoneId reading)) as [range|]; [|reflexivity].
  destruct (energyKw reading >? max range * 1.5); [reflexivity|].
  destruct (energyKw reading <? min range * 0.5); reflexivity.
Qed.

Lemma detectAnomaly_ignores_other_zone_witness :
  detectAnomaly (reading_of "warehouse" 30) (Some (reading_of "paint-shop" 10)) =
  detectAnomaly (reading_of "warehouse" 30) None.
Proof.
  apply (detectAnomaly_ignores_other_zone (reading_of "warehouse" 30)
           (reading_of "paint-shop" 10)).
  cbn. discriminate.
Defined.

(** X3: with no previous reading only the two threshold rules can fire: in a
    registered zone the result is none exactly when the reading is neither
    above [max * 1.5] nor below [min * 0.5]. *)
Theorem detectAnomaly_first_reading (reading : EnergyReading.t) (range : ZoneRange) :
  ZONE_RANGES !! zoneId reading = Some range →
  (detectAnomaly reading None = None ↔
   (energyKw reading >? max range * 1.5) = false ∧
   (energyKw reading <? min range * 0.5) = false).
Proof.
  intros Hrange. unfold detectAnomaly. rewrite (ZONE_RANGES_get_own _ _ Hrange).
  destruct (energyKw reading >? max range * 1.5);
    destruct (energyKw reading <? min range * 0.5); split; try done;
    intros [? ?]; done.
Qed.

Lemma detectAnomaly_first_reading_witness :
  detectAnomaly (reading_of "warehouse" 30) None = None ↔
  (30 >? 40 * 1.5) = false ∧ (30 <? 20 * 0.5) = false.
Proof.
  apply (detectAnomaly_first_reading (reading_of "warehouse" 30)
           {| min := 20; max := 40 |}).
  vm_compute. reflexivity.
Defined.

(** X4: a reading whose energy is NaN passes both threshold rules; with no
    previous reading it raises nothing, and with a previous reading of its
    zone it is reported as an anomaly of type drop and severity warning whose
    threshold is the previous energy and whose value is the NaN. *)
Theorem detectAnomaly_nan_reading
    (reading previous : EnergyReading.t) (range : ZoneRange) :
  ZONE_RANGES !! zoneId reading = Some range →
  is_nan (energyKw reading) = true →
  zoneId previous = zoneId reading →
  detectAnomaly reading None = None ∧
  ∃ a,
    detectAnomaly reading (Some previous) = Some a ∧
    Anomaly.type a = AnomalyType.drop ∧
    Anomaly.severity a = warning ∧
    Anomaly.threshold a = energyKw previous ∧
    is_nan (Anomaly.value a) = true ∧
    Anomaly.zoneId a = zoneId reading.
Proof.
  intros Hrange Hnan Hzone.
  destruct (nan_compare_false _ (max range * 1.5) Hnan) as (_ & Hgt & _ & _).
  destruct (nan_compare_false _ (min range * 0.5) Hnan) as (Hlt & _ & _ & _).
  change (_ = false) with ((energyKw reading >? max range * 1.5) = false) in Hgt.
  split.
  { unfold detectAnomaly. by rewrite (ZONE_RANGES_get_own _ _ Hrange), Hgt, Hlt. }
  rewrite (detectAnomaly_pattern_rule reading previous range Hrange Hgt Hlt Hzone).
  cbv zeta.
  pose proof (percentChange_nan _ (energyKw previous) Hnan) as Hpct.
  destruct (nan_compare_false _ 0.3 Hpct) as (_ & _ & -> & _).
  destruct (nan_compare_false _ 0.5 Hpct) as (_ & Hp & _ & _).
  destruct (nan_compare_false _ (energyKw previous) Hnan) as (_ & He & _ & _).
  unfold Number.gtb. rewrite Hp, He.
  eexists. split; [reflexivity|].
  cbn [createAnomaly Anomaly.type Anomaly.threshold Anomaly.severity
       Anomaly.value Anomaly.zoneId].
  split_and!; done.
Qed.

Lemma detectAnomaly_nan_reading_witness :
  detectAnomaly (reading_of "warehouse" nan) None = None ∧
  ∃ a,
    detectAnomaly (reading_of "warehouse" nan) (Some (reading_of "warehouse" 30)) = Some a ∧
    Anomaly.type a = AnomalyType.drop ∧
    Anomaly.severity a = warning ∧
    Anomaly.threshold a = 30 ∧
    is_nan (Anomaly.value a) = true ∧
    Anomaly.zoneId a = "warehouse"%string.
Proof.
  apply (detectAnomaly_nan_reading (reading_of "warehouse" nan)
           (reading_of "warehouse" 30) {| min := 20; max := 40 |});
    vm_compute; reflexivity.
Defined.

End DetectorEdgeFacts.

(** ** The provider's state over a message sequence *)

Section ContextFacts.

Import EnergyReading EnergyContext Detections Samples.

Lemma ingest_snoc (msgs : list EnergyReading.t) (reading : EnergyReading.t) :
  ingest (msgs ++ [reading]) = handleMessage (ingest msgs) reading.
Proof. unfold ingest. by rewrite fold_left_app. Qed.

Lemma zone_history_snoc (msgs : list EnergyReading.t) (reading : EnergyReading.t)
    (zone : string) :
  zone_history (msgs ++ [reading]) zone =
    zone_history msgs zone ++ (if decide (zoneId reading = zone) then [reading] else []).
Proof.
  unfold zone_history. rewrite filter_app. reflexivity.
Qed.

Lemma zone_history_Forall (msgs : list EnergyReading.t) (zone : string) :
  Forall (λ r, zoneId r = zone) (zone_history msgs zone).
Proof.
  unfold zone_history. induction msgs as [|r msgs IH]; [constructor|].
  destruct (decide (zoneId r = zone)).
  - rewrite filter_cons_True by done. by constructor.
  - by rewrite filter_cons_False.
Qed.

Lemma zone_history_idemp (msgs : list EnergyReading.t) (zone : string) :
  zone_history (zone_history msgs zone) zone = zone_history msgs zone.
Proof.
  pose proof (zone_history_Forall msgs zone) as H.
  induction H as [|r l Hr _ IH]; [done|].
  unfold zone_history in *. rewrite filter_cons_True by done. by f_equal.
Qed.

(** The history of another zone, within the readings of one zone, is empty. *)
Lemma zone_history_other (msgs : list EnergyReading.t) (zone zone' : string) :
  zone ≠ zone' → zone_history (zone_history msgs zone) zone' = [].
Proof.
  intros Hne. pose proof (zone_history_Forall msgs zone) as H.
  induction H as [|r l Hr _ IH]; [done|].
  unfold zone_history in *. rewrite filter_cons_False by congruence. done.
Qed.

Lemma previousReadings_ingest (msgs : list EnergyReading.t) (zone : string) :
  previousReadings (ingest msgs) !! zone = last (zone_history msgs zone).
Proof.
  induction msgs as [|reading msgs IH] using rev_ind; [done|].
  rewrite ingest_snoc, zone_history_snoc. unfold handleMessage.
  cbn [previousReadings]. rewrite lookup_insert.
  case_decide; [by rewrite last_snoc | by rewrite app_nil_r].
Qed.

Lemma latestReadings_ingest (msgs : list EnergyReading.t) (zone : string) :
  latestReadings (ingest msgs) !! zone = last (zone_history msgs zone).
Proof.
  induction msgs as [|reading msgs IH] using rev_ind; [done|].
  rewrite ingest_snoc, zone_history_snoc. unfold handleMessage.
  cbn [latestReadings]. rewrite lookup_insert.
  case_decide; [by rewrite last_snoc | by rewrite app_nil_r].
Qed.

(** The readings map holds an entry exactly for the zones seen. *)
Lemma readings_ingest (msgs : list EnergyReading.t) (zone : string) :
  readings (ingest msgs) !! zone =
    match zone_history msgs zone with
    | [] => None
    | history => Some (slice_last MAX_READINGS_PER_ZONE history)
    end.
Proof.
  induction msgs as [|reading msgs IH] using rev_ind; [done|].
  rewrite ingest_snoc, zone_history_snoc. unfold handleMessage.
  cbn [readings]. rewrite lookup_insert.
  case_decide as Hz.
  - subst zone. rewrite IH.
    destruct (zone_history msgs (zoneId reading)) as [|r history]; [done|].
    cbn [default from_option id]. by rewrite window_push_slice_last.
  - by rewrite app_nil_r.
Qed.

Lemma detections_from_snoc (seen msgs : list EnergyReading.t) (reading : EnergyReading.t) :
  detections_from seen (msgs ++ [reading]) =
    detections_from seen msgs ++ option_list (detection_at (seen ++ msgs) reading).
Proof.
  revert seen. induction msgs as [|r msgs IH]; intros seen; cbn [detections_from app].
  - by rewrite !app_nil_r.
  - by rewrite IH, <- !app_assoc.
Qed.

Lemma detections_snoc (msgs : list EnergyReading.t) (reading : EnergyReading.t) :
  detections (msgs ++ [reading]) =
    detections msgs ++ option_list (detection_at msgs reading).
Proof. unfold detections. by rewrite detections_from_snoc. Qed.

(** Appending to the last [n] elements and cutting again is appending and
    cutting once. *)
Lemma slice_last_snoc {A} (n : nat) (l : list A) (a : A) :
  0 < n → slice_last n (slice_last n l ++ [a]) = slice_last n (l ++ [a]).
Proof.
  intros Hn. unfold slice_last. rewrite !length_app, length_drop. cbn [length].
  destruct (decide (length l < n)).
  - replace (length l - n) with 0 by lia. cbn [drop].
    by replace (length l - 0 + 1 - n) with (length l + 1 - n) by lia.
  - rewrite drop_app_le by (rewrite length_drop; lia).
    rewrite drop_drop, (drop_app_le l) by lia.
    do 2 f_equal. lia.
Qed.

(** The anomaly log is the last [MAX_ANOMALIES] anomalies raised. *)
Lemma anomalies_ingest (msgs : list EnergyReading.t) :
  anomalies (ingest msgs) = slice_last MAX_ANOMALIES (detections msgs).
Proof.
  induction msgs as [|reading msgs IH] using rev_ind; [done|].
  rewrite ingest_snoc, detections_snoc. unfold handleMessage. cbn [anomalies].
  rewrite previousReadings_ingest. fold (detection_at msgs reading).
  destruct (detection_at msgs reading) as [a|]; cbn [option_list option_rect].
  - rewrite IH. apply slice_last_snoc. unfold MAX_ANOMALIES. lia.
  - by rewrite app_nil_r.
Qed.

(** The anomalies of one zone are those of the zone's own readings. *)
Lemma detections_zone (msgs : list EnergyReading.t) (zone : string) :
  filter (λ a, Anomaly.zoneId a = zone) (detections msgs) =
    detections (zone_history msgs zone).
Proof.
  induction msgs as [|reading msgs IH] using rev_ind; [done|].
  rewrite detections_snoc, filter_app, IH, zone_history_snoc.
  assert (Hzone : ∀ a, detection_at msgs reading = Some a →
                       Anomaly.zoneId a = zoneId reading).
  { intros a Ha. apply detectAnomaly_Some_inv in Ha as (_ & ty & th & sev & ->).
    done. }
  case_decide as Hz.
  - rewrite detections_snoc. f_equal.
    unfold detection_at at 2. rewrite Hz, zone_history_idemp, <- Hz.
    fold (detection_at msgs reading).
    destruct (detection_at msgs reading) as [a|] eqn:Ha; [|done].
    cbn [option_list option_rect].
    rewrite filter_cons_True, filter_nil; [done|].
    rewrite (Hzone a eq_refl). done.
  - rewrite app_nil_r.
    destruct (detection_at msgs reading) as [a|] eqn:Ha;
      cbn [option_list option_rect].
    + rewrite filter_cons_False, filter_nil, app_nil_r; [done|].
      rewrite (Hzone a eq_refl). done.
    + by rewrite filter_nil, app_nil_r.
Qed.

(** X5: for every zone, the latest reading and the stored previous reading
    are both the reading most recently ingested for the zone (none if the
    zone was never seen), which is also the last element of its window. *)
Theorem latest_reading_tracks_arrival (msgs : list EnergyReading.t) (zone : string) :
  latestReadings (ingest msgs) !! zone = last (zone_history msgs zone) ∧
  previousReadings (ingest msgs) !! zone = latestReadings (ingest msgs) !! zone ∧
  latestReadings (ingest msgs) !! zone = last (window (ingest msgs) zone).
Proof.
  rewrite latestReadings_ingest, previousReadings_ingest, window_ingest.
  split; [done|]. split; [done|].
  unfold slice_last. rewrite !last_lookup, lookup_drop, length_drop.
  destruct (decide (length (zone_history msgs zone) = 0)) as [E|E].
  - apply length_zero_iff_nil in E. by rewrite E.
  - f_equal. unfold MAX_READINGS_PER_ZONE. lia.
Qed.

(** X6: the anomaly log holds the last 50 anomalies raised, in the order
    in which they were raised, and so never more than 50. *)
Theorem anomaly_log_bounded (msgs : list EnergyReading.t) :
  MAX_ANOMALIES = 50 ∧
  anomalies (ingest msgs) = slice_last MAX_ANOMALIES (detections msgs) ∧
  length (anomalies (ingest msgs)) ≤ MAX_ANOMALIES.
Proof.
  split; [done|]. rewrite anomalies_ingest. split; [done|].
  unfold slice_last. rewrite length_drop. lia.
Qed.

(** X7: the anomalies raised for a zone do not depend on the readings of
    the other zones: they are the anomalies raised when only that zone's
    readings are ingested. *)
Theorem detections_per_zone (msgs : list EnergyReading.t) (zone : string) :
  filter (λ a, Anomaly.zoneId a = zone) (detections msgs) =
    detections (zone_history msgs zone).
Proof. apply detections_zone. Qed.

(** X8: a zone's window and latest reading do not depend on the readings
    of the other zones. *)
Theorem store_per_zone (msgs : list EnergyReading.t) (zone : string) :
  window (ingest msgs) zone = window (ingest (zone_history msgs zone)) zone ∧
  latestReadings (ingest msgs) !! zone =
    latestReadings (ingest (zone_history msgs zone)) !! zone.
Proof.
  by rewrite !window_ingest, !latestReadings_ingest, zone_history_idemp.
Qed.

(** X9: a zone has an entry in the readings map, and in the latest
    readings, exactly when a reading of it was ingested; an entry never
    holds an empty window. *)
Theorem store_keys (msgs : list EnergyReading.t) (zone : string) :
  (readings (ingest msgs) !! zone = None ↔ zone_history msgs zone = []) ∧
  (latestReadings (ingest msgs) !! zone = None ↔ zone_history msgs zone = []) ∧
  readings (ingest msgs) !! zone ≠ Some [].
Proof.
  rewrite readings_ingest, latestReadings_ingest, last_None.
  split; [|split; [done|]].
  - by destruct (zone_history msgs zone).
  - destruct (zone_history msgs zone) as [|r history] eqn:E; [done|].
    intros [= H]. apply (f_equal length) in H. revert H.
    unfold slice_last, MAX_READINGS_PER_ZONE.
    rewrite length_drop. cbn [length]. lia.
Qed.

(** Readings of one zone that all carry one in-bounds energy raise
    nothing. *)
Lemma detections_flat (history : list EnergyReading.t) (zone : string)
    (range : AnomalyDetection.ZoneRange) (v : float) :
  AnomalyDetection.ZONE_RANGES !! zone = Some range →
  (v <=? AnomalyDetection.max range * 1.5)%float = true →
  (v >=? AnomalyDetection.min range * 0.5)%float = true →
  Forall (λ r, zoneId r = zone) history →
  Forall (λ r, energyKw r = v) history →
  detections history = [].
Proof.
  intros Hrange Hle Hge.
  induction history as [|reading history IH] using rev_ind; intros Hzone Hflat;
    [done|].
  apply Forall_app in Hflat as [Hflat Hr]. apply Forall_app in Hzone as [Hzone Hz].
  rewrite Forall_singleton in Hr. rewrite Forall_singleton in Hz.
  rewrite detections_snoc, (IH Hzone Hflat). cbn [app].
  unfold detection_at. rewrite Hz.
  replace (zone_history history zone) with history; last first.
  { clear -Hzone. induction Hzone as [|r l Hr _ IH]; [done|].
    unfold zone_history in *. rewrite filter_cons_True by done. by f_equal. }
  destruct (last history) as [previous|] eqn:Hlast.
  - apply last_Some in Hlast as [history' ->].
    apply Forall_app in Hflat as [_ Hp]. apply Forall_app in Hzone as [_ Hpz].
    rewrite Forall_singleton in Hp. rewrite Forall_singleton in Hpz.
    rewrite (detectAnomaly_same_energy reading previous range);
      [done|by rewrite Hz|by rewrite Hr|by rewrite Hr|congruence|congruence].
  - rewrite (detectAnomaly_no_previous_in_bounds reading range);
      [done|by rewrite Hz|by rewrite Hr|by rewrite Hr].
Qed.

(** X10: a zone whose readings all carry one and the same energy, within
    the zone's bounds, never raises an anomaly, whatever the other zones
    send: a flat line is not detected. *)
Theorem flatline_not_detected (msgs : list EnergyReading.t) (zone : string)
    (range : AnomalyDetection.ZoneRange) (v : float) :
  AnomalyDetection.ZONE_RANGES !! zone = Some range →
  (v <=? AnomalyDetection.max range * 1.5)%float = true →
  (v >=? AnomalyDetection.min range * 0.5)%float = true →
  Forall (λ r, energyKw r = v) (zone_history msgs zone) →
  filter (λ a, Anomaly.zoneId a = zone) (detections msgs) = [].
Proof.
  intros Hrange Hle Hge Hflat. rewrite detections_zone.
  apply (detections_flat _ zone range v); try done.
  apply zone_history_Forall.
Qed.

Lemma flatline_not_detected_witness :
  filter (λ a, Anomaly.zoneId a = "warehouse"%string)
         (detections MoreSamples.flat_run) = [].
Proof.
  apply (flatline_not_detected MoreSamples.flat_run "warehouse"
           {| AnomalyDetection.min := 20; AnomalyDetection.max := 40 |} 30%float).
  - vm_compute. reflexivity.
  - vm_compute. reflexivity.
  - vm_compute. reflexivity.
  - unfold zone_history, MoreSamples.flat_run.
    rewrite filter_cons_True by done. rewrite filter_cons_False by done.
    rewrite !filter_cons_True by done. repeat constructor.
Defined.

End ContextFacts.

(** ** The anomaly panel and the chart gate *)

Section PanelFacts.

Import EnergyReading EnergyContext Detections.

Lemma slice_last_slice_last {A} (n m : nat) (l : list A) :
  slice_last n (slice_last m l) = slice_last (Nat.min n m) l.
Proof.
  unfold slice_last. rewrite length_drop, drop_drop. f_equal. lia.
Qed.

(** X11: the anomaly panel lists the 20 most recent anomalies ever raised,
    newest first; the cut of the log to 50 entries never hides one of them. *)
Theorem recentAnomalies_newest_first (msgs : list EnergyReading.t) :
  AnomalyList.recentAnomalies (anomalies (ingest msgs)) =
    take 20 (reverse (detections msgs)) ∧
  length (AnomalyList.recentAnomalies (anomalies (ingest msgs))) =
    Nat.min 20 (length (detections msgs)) ∧
  head (AnomalyList.recentAnomalies (anomalies (ingest msgs))) =
    last (detections msgs).
Proof.
  assert (H : AnomalyList.recentAnomalies (anomalies (ingest msgs)) =
              take 20 (reverse (detections msgs))).
  { unfold AnomalyList.recentAnomalies.
    rewrite anomalies_ingest, slice_last_slice_last.
    unfold slice_last, MAX_ANOMALIES. cbn [Nat.min]. by rewrite take_reverse. }
  rewrite H. split; [done|].
  split; [by rewrite length_take, length_reverse|].
  rewrite <- head_reverse. by destruct (reverse (detections msgs)).
Qed.

(** The point count of the chart sums the windows; replacing one window
    changes it by the difference in length. *)
Lemma totalDataPoints_insert_new (readings : gmap string (list EnergyReading.t))
    (zone : string) (window : list EnergyReading.t) :
  readings !! zone = None →
  EnergyChart.totalDataPoints (<[zone := window]> readings) =
    EnergyChart.totalDataPoints readings + length window.
Proof.
  intros H. unfold EnergyChart.totalDataPoints.
  rewrite map_fold_insert_L; [done| |done]. intros; lia.
Qed.

Lemma totalDataPoints_lookup (readings : gmap string (list EnergyReading.t))
    (zone : string) (window : list EnergyReading.t) :
  readings !! zone = Some window →
  EnergyChart.totalDataPoints readings =
    EnergyChart.totalDataPoints (delete zone readings) + length window.
Proof.
  intros H. unfold EnergyChart.totalDataPoints.
  rewrite (map_fold_delete_L _ _ zone window readings); [done| |done].
  intros; lia.
Qed.

Lemma totalDataPoints_insert (readings : gmap string (list EnergyReading.t))
    (zone : string) (window : list EnergyReading.t) :
  EnergyChart.totalDataPoints (<[zone := window]> readings) + length (default [] (readings !! zone)) =
    EnergyChart.totalDataPoints readings + length window.
Proof.
  destruct (readings !! zone) as [old|] eqn:E; cbn [default from_option id length].
  - rewrite <- insert_delete_eq.
    rewrite totalDataPoints_insert_new by apply lookup_delete_eq.
    rewrite (totalDataPoints_lookup readings zone old E). lia.
  - rewrite totalDataPoints_insert_new by done. lia.
Qed.

(** The count after a sequence of messages: it never exceeds the number of
    messages, and falls short of it only once a window is full. *)
Lemma totalDataPoints_ingest (msgs : list EnergyReading.t) :
  EnergyChart.totalDataPoints (readings (ingest msgs)) ≤ length msgs ∧
  Nat.min (length msgs) MAX_READINGS_PER_ZONE ≤
    EnergyChart.totalDataPoints (readings (ingest msgs)).
Proof.
  induction msgs as [|reading msgs [IH1 IH2]] using rev_ind.
  { cbn. unfold EnergyChart.totalDataPoints. rewrite map_fold_empty. lia. }
  rewrite ingest_snoc, length_app. cbn [length].
  unfold handleMessage. cbn [readings].
  pose proof (totalDataPoints_insert (readings (ingest msgs)) (zoneId reading)
                (window_push (default [] (readings (ingest msgs) !! zoneId reading)) reading))
    as Hins.
  fold (window (ingest msgs) (zoneId reading)) in Hins |- *.
  assert (Hbound : length (window (ingest msgs) (zoneId reading)) ≤ MAX_READINGS_PER_ZONE).
  { rewrite window_ingest. unfold slice_last. rewrite length_drop. lia. }
  assert (Hpart : length (window (ingest msgs) (zoneId reading)) ≤
                  EnergyChart.totalDataPoints (readings (ingest msgs))).
  { unfold window. destruct (readings (ingest msgs) !! zoneId reading) as [old|] eqn:E;
      cbn [default from_option id length]; [|lia].
    rewrite (totalDataPoints_lookup _ _ _ E). lia. }
  revert Hins. unfold window_push. rewrite length_app. cbn [length].
  unfold MAX_READINGS_PER_ZONE in *.
  destruct (Nat.ltb_spec 1500 (length (window (ingest msgs) (zoneId reading)) + 1)).
  - destruct (window (ingest msgs) (zoneId reading) ++ [reading]) as [|x l] eqn:El.
    { by destruct (window (ingest msgs) (zoneId reading)). }
    apply (f_equal length) in El. rewrite length_app in El. cbn [length tail] in *.
    lia.
  - rewrite length_app. cbn [length]. lia.
Qed.

(** X12: the chart leaves its "Collecting data" state exactly when 1000
    messages have been ingested, however they are spread over the zones, and
    it never returns to it; up to 1500 messages the count shown is the number
    of messages. *)
Theorem chart_gate (msgs : list EnergyReading.t) :
  (EnergyChart.collecting (readings (ingest msgs)) = true ↔ length msgs < 1000) ∧
  (length msgs ≤ 1500 →
   EnergyChart.totalDataPoints (readings (ingest msgs)) = length msgs).
Proof.
  destruct (totalDataPoints_ingest msgs) as [H1 H2].
  unfold EnergyChart.collecting, EnergyChart.MIN_DATA_POINTS.
  unfold MAX_READINGS_PER_ZONE in H2.
  rewrite Nat.ltb_lt. split; [lia|lia].
Qed.

End PanelFacts.

(** ** Baselines and comparisons at their edges *)

Section ComparisonEdgeFacts.

Local Open Scope float_scope.
Import EnergyReading HistoricalData Samples.

(** A zero percentage is normal. *)
Lemma getComparisonStatus_zero (p : float) (s : bool) :
  Prim2SF p = S754_zero s → getComparisonStatus p = normal.
Proof.
  intros Hp. unfold getComparisonStatus.
  rewrite ltb_spec, abs_spec, Hp. reflexivity.
Qed.

(** X13: against a baseline of zero the percentage is 0 and the status is
    normal, whatever the current value is. *)
Theorem compare_zero_baseline (current baseline : float) :
  (baseline =? 0) = true → compare current baseline = (0, normal).
Proof.
  intros H. unfold compare, calculatePercentageDiff. by rewrite H.
Qed.

Lemma compare_zero_baseline_witness : compare infinity (-0) = (0, normal).
Proof. apply (compare_zero_baseline infinity (-0)). reflexivity. Defined.

(** X14: a finite nonzero value compared with itself differs by a zero
    percentage and is normal. *)
Theorem compare_same_value (b : float) :
  is_finite b = true → (b =? 0) = false →
  ((compare b b).1 =? 0) = true ∧ (compare b b).2 = normal.
Proof.
  intros Hf Hnz. unfold compare, calculatePercentageDiff. rewrite Hnz.
  destruct (percentage_diag b Hf Hnz) as [s Hs]. cbn [fst snd].
  split; [|by apply (getComparisonStatus_zero _ s)].
  rewrite FloatAxioms.eqb_spec, Hs. reflexivity.
Qed.

Lemma compare_same_value_witness :
  ((compare 250 250).1 =? 0) = true ∧ (compare 250 250).2 = normal.
Proof. apply (compare_same_value 250); reflexivity. Defined.

(** X15: a current value that is NaN, against a nonzero baseline, gives a
    NaN percentage, and the status is below. *)
Theorem compare_nan_current (current baseline : float) :
  is_nan current = true → (baseline =? 0) = false →
  is_nan (compare current baseline).1 = true ∧
  (compare current baseline).2 = below.
Proof.
  intros Hnan Hnz. unfold compare, calculatePercentageDiff. rewrite Hnz.
  cbn [fst snd]. pose proof (percentage_nan current baseline Hnan) as Hp.
  split; [done|]. unfold getComparisonStatus, Number.gtb.
  assert (Habs : is_nan (abs ((current - baseline) / baseline * 100)) = true).
  { apply is_nan_true. rewrite abs_spec.
    apply is_nan_true in Hp. by rewrite Hp. }
  destruct (nan_compare_false _ 10 Habs) as (-> & _).
  by destruct (nan_compare_false _ 0 Hp) as (_ & -> & _).
Qed.

Lemma compare_nan_current_witness :
  is_nan (compare nan 100).1 = true ∧ (compare nan 100).2 = below.
Proof. apply (compare_nan_current nan 100); reflexivity. Defined.

Lemma find_head_filter (corpus : list EnergyReading.t) (zone : string) :
  List.find (λ r, String.eqb (zoneId r) zone) corpus =
    head (filter (λ r, zoneId r = zone) corpus).
Proof.
  induction corpus as [|r corpus IH]; [done|]. cbn [List.find].
  destruct (String.eqb_spec (zoneId r) zone) as [Hz|Hz].
  - by rewrite filter_cons_True.
  - by rewrite filter_cons_False.
Qed.

(** X16: a baseline that is produced carries the zone name of the first
    reading of its zone in the corpus, or the zone id when that name is
    empty. *)
Theorem baseline_zone_name (limit : nat) (corpus : list EnergyReading.t)
    (baselines : gmap string HistoricalBaseline.t) (zone : string)
    (b : HistoricalBaseline.t) :
  calculateBaselines limit corpus = Some baselines →
  baselines !! zone = Some b →
  ∃ first, head (filter (λ r, zoneId r = zone) corpus) = Some first ∧
           HistoricalBaseline.zoneName b =
             if decide (zoneName first = ""%string) then zone else zoneName first.
Proof.
  intros Hbs. rewrite (calculateBaselines_Some_lookup limit corpus baselines zone Hbs).
  unfold zone_values.
  destruct (filter (λ r, zoneId r = zone) corpus) as [|first rest] eqn:E; [done|].
  cbn [fmap list_fmap]. intros Hb.
  apply baseline_of_Some_inv in Hb as (_ & -> & _).
  exists first. split; [done|]. unfold zone_name_of.
  rewrite find_head_filter, E. cbn [head].
  destruct (String.eqb_spec (zoneName first) ""); by case_decide.
Qed.

Lemma baseline_zone_name_witness :
  ∃ first, head (filter (λ r, zoneId r = "a"%string) corpus_a) = Some first ∧
           HistoricalBaseline.zoneName baseline_a =
             if decide (zoneName first = ""%string) then "a"%string else zoneName first.
Proof.
  apply (baseline_zone_name 1000 corpus_a baselines_a "a").
  - vm_compute. reflexivity.
  - vm_compute. reflexivity.
Defined.

Lemma dataPoints_lookup (limit : nat) (corpus : list EnergyReading.t)
    (baselines : gmap string HistoricalBaseline.t) (zone : string) :
  calculateBaselines limit corpus = Some baselines →
  from_option HistoricalBaseline.dataPoints 0%nat (baselines !! zone) =
    length (zone_values corpus zone).
Proof.
  intros Hbs. rewrite (calculateBaselines_Some_lookup limit corpus baselines zone Hbs).
  pose proof (calculateBaselines_Some_within limit corpus baselines zone Hbs) as Hle.
  destruct (zone_values corpus zone) as [|v values]; [done|].
  by rewrite baseline_of_within.
Qed.

(** A listed zone is counted once among distinct zones. *)
Lemma sum_indicator (zones : list string) (zone : string) :
  NoDup zones → zone ∈ zones →
  sum_list ((λ z, if decide (zone = z) then 1 else 0)%nat <$> zones) = 1%nat.
Proof.
  induction 1 as [|z zones Hnotin Hnodup IH]; intros Hin.
  - by apply elem_of_nil in Hin.
  - rewrite fmap_cons. cbn [sum_list].
    apply elem_of_cons in Hin as [->|Hin].
    + rewrite decide_True by done.
      assert (Hzero : ∀ l : list string, z ∉ l →
                sum_list ((λ z', if decide (z = z') then 1 else 0)%nat <$> l) = 0%nat).
      { induction l as [|x l IHl]; [done|]. intros Hx.
        apply not_elem_of_cons in Hx as [Hne Hx].
        rewrite fmap_cons. cbn [sum_list].
        rewrite decide_False by done. by rewrite IHl. }
      by rewrite (Hzero zones Hnotin).
    + rewrite decide_False by (intros ->; done). by rewrite IH.
Qed.

(** X17: grouping loses and repeats nothing: over any list of distinct zone
    ids that covers the corpus, the data points of the baselines that are
    produced add up to the number of readings. *)
Theorem dataPoints_partition (limit : nat) (corpus : list EnergyReading.t)
    (baselines : gmap string HistoricalBaseline.t) (zones : list string) :
  calculateBaselines limit corpus = Some baselines →
  NoDup zones → (∀ r, r ∈ corpus → zoneId r ∈ zones) →
  sum_list ((λ z, from_option HistoricalBaseline.dataPoints 0%nat
                    (baselines !! z)) <$> zones) = length corpus.
Proof.
  intros Hbs Hnodup Hcover.
  assert (Heq : (λ z, from_option HistoricalBaseline.dataPoints 0%nat
                        (baselines !! z)) <$> zones =
                (λ z, length (zone_values corpus z)) <$> zones)
    by (apply list_fmap_ext; intros; by apply (dataPoints_lookup limit)).
  rewrite Heq. clear Heq Hbs baselines.
  induction corpus as [|r corpus IH].
  { clear. induction zones as [|z zones IH]; [done|].
    rewrite fmap_cons. cbn [sum_list]. by rewrite IH. }
  transitivity
    (sum_list ((λ z, if decide (zoneId r = z) then 1 else 0) <$> zones) +
     sum_list ((λ z, length (zone_values corpus z)) <$> zones))%nat; last first.
  { rewrite (sum_indicator zones (zoneId r) Hnodup) by (apply Hcover; constructor).
    rewrite IH by (intros; apply Hcover; by constructor). done. }
  clear. induction zones as [|z zones IH]; [done|].
  rewrite !fmap_cons. cbn [sum_list]. rewrite IH.
  assert (length (zone_values (r :: corpus) z) =
          (if decide (zoneId r = z) then 1 else 0) + length (zone_values corpus z))%nat
    as ->; [|unfold id; lia].
  unfold zone_values. destruct (decide (zoneId r = z)).
  - by rewrite filter_cons_True.
  - by rewrite filter_cons_False.
Qed.

Lemma dataPoints_partition_witness :
  sum_list ((λ z, from_option HistoricalBaseline.dataPoints 0%nat
                    (baselines_a !! z)) <$> ["a"%string; "b"%string]) = 2%nat.
Proof.
  apply (dataPoints_partition 1000 corpus_a baselines_a ["a"%string; "b"%string]).
  - vm_compute. reflexivity.
  - apply NoDup_cons. split; [|apply NoDup_singleton].
    intros H. apply list_elem_of_singleton in H. discriminate H.
  - intros r Hr. unfold corpus_a in Hr.
    apply elem_of_cons in Hr as [->|Hr]; [constructor|].
    apply elem_of_cons in Hr as [->|Hr]; [constructor|].
    by apply elem_of_nil in Hr.
Defined.

End ComparisonEdgeFacts.

(** ** The comparison cards and the historical-data hook *)

Section CardFacts.

Local Open Scope float_scope.
Import HistoricalData HistoricalComparison.

Lemma comparison_of_Some (baselines : gmap string HistoricalBaseline.t)
    (timeRange : TimeRange) (zone : string) (reading : EnergyReading.t)
    (c : Comparison) :
  comparison_of baselines timeRange (zone, reading) = Some c →
  zoneId c = zone ∧
  current c = EnergyReading.energyKw reading ∧
  zoneName c = EnergyReading.zoneName reading ∧
  percentage c = calculatePercentageDiff (current c) (baseline c) ∧
  status c = getComparisonStatus (percentage c) ∧
  ∃ b, baselines !! zone = Some b ∧
       baseline c = HistoricalBaseline.avgEnergyKw (filterBaselineByTimeRange b timeRange).
Proof.
  unfold comparison_of. destruct (baselines !! zone) as [b|]; [|done].
  intros [= <-]. cbn. eauto 10.
Qed.

(** X18: the comparison cards are, one for one and in the same order,
    those latest readings whose zone has a baseline; a zone without a
    baseline is skipped.  A card carries the zone id of its entry, the zone
    name of the reading, the reading's energy as its current value, the
    baseline average as scaled for the time range, the percentage
    difference of the reading's energy from that baseline, and the status of
    that percentage.  Without baselines there is no card. *)
Theorem comparisons_cards (latestReadings : list (string * EnergyReading.t))
    (baselines : gmap string HistoricalBaseline.t) (timeRange : TimeRange) :
  Forall2
    (λ c entry,
       zoneId c = entry.1 ∧
       zoneName c = EnergyReading.zoneName entry.2 ∧
       current c = EnergyReading.energyKw entry.2 ∧
       (∃ b, baselines !! entry.1 = Some b ∧
             baseline c =
               HistoricalBaseline.avgEnergyKw (filterBaselineByTimeRange b timeRange)) ∧
       percentage c =
         calculatePercentageDiff (EnergyReading.energyKw entry.2) (baseline c) ∧
       status c = getComparisonStatus (percentage c))
    (comparisons latestReadings baselines timeRange)
    (filter (λ entry, is_Some (baselines !! entry.1)) latestReadings) ∧
  comparisons latestReadings ∅ timeRange = [].
Proof.
  unfold comparisons. split.
  - induction latestReadings as [|[zone reading] entries IH];
      [rewrite filter_nil; constructor|].
    cbn [omap list_omap].
    destruct (comparison_of baselines timeRange (zone, reading)) as [c|] eqn:E.
    + apply comparison_of_Some in E as (Hz & Hc & Hn & Hp & Hs & b & Hb & Hbase).
      rewrite filter_cons_True by (cbn [fst]; by rewrite Hb).
      constructor; [|apply IH]. cbn [fst snd].
      split; [done|]. split; [done|]. split; [done|].
      split; [by exists b|]. split; [by rewrite <- Hc|done].
    + unfold comparison_of in E.
      destruct (baselines !! zone) as [b|] eqn:Hb; [done|].
      rewrite filter_cons_False; [apply IH|].
      cbn [fst]. rewrite Hb. by intros [? ?].
  - induction latestReadings as [|[zone reading] entries IH]; [done|].
    cbn [omap list_omap]. unfold comparison_of at 1. by rewrite lookup_empty.
Qed.

Lemma zone_values_elem (corpus : list EnergyReading.t) (r : EnergyReading.t) :
  r ∈ corpus → zone_values corpus (EnergyReading.zoneId r) ≠ [].
Proof.
  intros Hr. unfold zone_values.
  assert (Hin : r ∈ filter (λ r', EnergyReading.zoneId r' = EnergyReading.zoneId r) corpus)
    by (by apply list_elem_of_filter).
  destruct (filter _ corpus); [by apply elem_of_nil in Hin|done].
Qed.

(** X19: before the load ends the component shows its loading state.  When
    the historical data cannot be fetched or is empty, the hook ends with the
    error "No historical data available" and no baseline, and the component
    shows that error whatever the live readings are.  For data that is not
    empty the load ends with [loading] cleared, in one of two ways: if no
    zone has more readings than the engine takes as spread arguments, without
    error and with a baseline for every zone of the data; if some zone has
    more, the exception is caught, the hook ends with the error "Failed to
    load historical data" and no baseline, and the component shows that
    error. *)
Theorem historical_load_outcome (limit : nat)
    (latestReadings : list (string * EnergyReading.t)) (timeRange : TimeRange) :
  render UseHistoricalData.initial latestReadings timeRange = LoadingView ∧
  render (UseHistoricalData.loadData limit None) latestReadings timeRange =
    ErrorView "No historical data available" ∧
  render (UseHistoricalData.loadData limit (Some [])) latestReadings timeRange =
    ErrorView "No historical data available" ∧
  UseHistoricalData.baselines (UseHistoricalData.loadData limit None) = ∅ ∧
  ∀ data : list EnergyReading.t, data ≠ [] →
    let hook := UseHistoricalData.loadData limit (Some data) in
    UseHistoricalData.loading hook = false ∧
    ((∀ zone, length (zone_values data zone) ≤ limit) →
     UseHistoricalData.error hook = None ∧
     HistoricalData.calculateBaselines limit data =
       Some (UseHistoricalData.baselines hook) ∧
     ∀ r, r ∈ data →
       is_Some (UseHistoricalData.baselines hook !! EnergyReading.zoneId r)) ∧
    (∀ zone, limit < length (zone_values data zone) →
     UseHistoricalData.error hook = Some "Failed to load historical data"%string ∧
     UseHistoricalData.baselines hook = ∅ ∧
     render hook latestReadings timeRange =
       ErrorView "Failed to load historical data").
Proof.
  split; [done|]. split; [done|]. split; [done|]. split; [done|].
  intros data Hne hook. subst hook. unfold UseHistoricalData.loadData.
  cbn [UseHistoricalData.loadHistoricalData].
  destruct data as [|r0 data]; [done|]. cbn [length Nat.eqb].
  split; [|split].
  - by destruct (calculateBaselines limit (r0 :: data)).
  - intros Hle.
    destruct (calculateBaselines_within limit (r0 :: data) Hle) as [baselines Hbs].
    rewrite Hbs.
    cbn [UseHistoricalData.error UseHistoricalData.loading UseHistoricalData.baselines].
    split; [done|]. split; [done|]. intros r Hr.
    rewrite (calculateBaselines_Some_lookup limit _ baselines _ Hbs).
    pose proof (zone_values_elem _ _ Hr) as Hv.
    specialize (Hle (EnergyReading.zoneId r)).
    destruct (zone_values (r0 :: data) (EnergyReading.zoneId r)) as [|v values];
      [done|].
    by rewrite baseline_of_within.
  - intros zone Hlt.
    rewrite (calculateBaselines_over limit (r0 :: data) zone Hlt).
    done.
Qed.

Lemma historical_load_outcome_witness :
  UseHistoricalData.error (UseHistoricalData.loadData 1 (Some Samples.corpus_a)) =
    Some "Failed to load historical data"%string ∧
  UseHistoricalData.baselines (UseHistoricalData.loadData 1 (Some Samples.corpus_a)) = ∅ ∧
  render (UseHistoricalData.loadData 1 (Some Samples.corpus_a)) [] week =
    ErrorView "Failed to load historical data".
Proof.
  apply (proj2 (proj2
           (proj2 (proj2 (proj2 (proj2 (historical_load_outcome 1 [] week))))
              Samples.corpus_a ltac:(discriminate)))
           "a"%string).
  vm_compute. lia.
Defined.

End CardFacts.

(** ** The connection hook over arbitrary event sequences *)

Section ConnectionFacts.

Import UseWebSocket.

Lemma run_app (st : State) (evs evs' : list Event) :
  run st (evs ++ evs') =
    ((run (run st evs).1 evs').1, (run st evs).2 ++ (run (run st evs).1 evs').2).
Proof.
  revert st. induction evs as [|ev evs IH]; intros st; cbn [app run].
  - cbn [fst snd app]. by destruct (run st evs').
  - destruct (step st ev) as [st1 d]. rewrite IH.
    destruct (run st1 evs) as [st2 ds]. cbn [fst snd].
    destruct (run st2 evs') as [st3 ds']. by destruct d.
Qed.

(** On an unmounted hook whose timer is cleared every handler returns at
    once. *)
Lemma step_unmounted (st : State) (ev : Event) :
  isMounted st = false → timeoutRef st = None → step st ev = (st, None).
Proof.
  intros Hm Ht. destruct st as [s a r t m]. cbn in Hm, Ht. subst.
  by destruct ev.
Qed.

(** X20: the cleanup is final: it clears the pending timer, and after it
    no event changes the hook's state or schedules a retry. *)
Theorem cleanup_is_final (st : State) (evs : list Event) :
  timeoutRef (step st Unmount).1 = None ∧
  isMounted (step st Unmount).1 = false ∧
  run (step st Unmount).1 evs = ((step st Unmount).1, []).
Proof.
  cbn [step fst]. split; [done|]. split; [done|].
  induction evs as [|ev evs IH]; [done|]. cbn [run].
  rewrite step_unmounted by done. by rewrite IH.
Qed.

(** One step keeps the two counters equal and under the ceiling, and any
    delay it schedules lies between one and sixteen seconds. *)
Lemma step_invariant (st : State) (ev : Event) :
  attempts st = reconnectAttemptsRef st →
  reconnectAttemptsRef st ≤ MAX_RECONNECT →
  attempts (step st ev).1 = reconnectAttemptsRef (step st ev).1 ∧
  reconnectAttemptsRef (step st ev).1 ≤ MAX_RECONNECT ∧
  match (step st ev).2 with
  | Some d => (1000 ≤ d ≤ 16000)%Z
  | None => True
  end.
Proof.
  unfold MAX_RECONNECT. intros Ha Hr.
  destruct ev; cbn [step fst snd];
    try (unfold onopen, onerror, ontimer, cleanup;
         destruct (isMounted st); cbn; split_and!; (done || lia)).
  unfold onclose. destruct (isMounted st); cbn [negb]; [|done].
  destruct (Nat.ltb_spec (reconnectAttemptsRef st) MAX_RECONNECT) as [Hlt|Hge];
    unfold MAX_RECONNECT in *; cbn [fst snd attempts reconnectAttemptsRef].
  - split; [done|]. split; [lia|].
    rewrite (backoff_delay_capped _ Hlt).
    assert (2 ^ 0 ≤ 2 ^ Z.of_nat (reconnectAttemptsRef st))%Z
      by (apply Z.pow_le_mono_r; lia).
    lia.
  - done.
Qed.

(** X21: whatever events arrive, the attempt count shown equals the
    internal counter and never exceeds 5, and every retry is scheduled with
    a delay between 1 and 16 seconds. *)
Theorem attempts_bounded (evs : list Event) :
  attempts (run initial evs).1 = reconnectAttemptsRef (run initial evs).1 ∧
  attempts (run initial evs).1 ≤ 5 ∧
  Forall (λ d, (1000 ≤ d ≤ 16000)%Z) (run initial evs).2.
Proof.
  assert (H : ∀ st, attempts st = reconnectAttemptsRef st →
                    reconnectAttemptsRef st ≤ MAX_RECONNECT →
                    attempts (run st evs).1 = reconnectAttemptsRef (run st evs).1 ∧
                    reconnectAttemptsRef (run st evs).1 ≤ MAX_RECONNECT ∧
                    Forall (λ d, (1000 ≤ d ≤ 16000)%Z) (run st evs).2).
  { induction evs as [|ev evs IH]; intros st Ha Hr; [by split_and!|].
    cbn [run]. destruct (step_invariant st ev Ha Hr) as (Ha' & Hr' & Hd).
    destruct (step st ev) as [st1 d]. cbn [fst snd] in *.
    destruct (IH st1 Ha' Hr') as (I1 & I2 & I3).
    destruct (run st1 evs) as [st2 ds]. cbn [fst snd] in *.
    split; [done|]. split; [done|]. destruct d; [by constructor|done]. }
  destruct (H initial eq_refl) as (H1 & H2 & H3); [unfold MAX_RECONNECT; cbn; lia|].
  unfold MAX_RECONNECT in H2. split; [done|]. split; [lia|done].
Qed.

Lemma sum_backoff (n : nat) :
  foldr Z.add 0%Z (backoff_delay <$> seq 0 n) = (1000 * (2 ^ Z.of_nat n - 1))%Z.
Proof.
  induction n as [|n IH]; [done|].
  rewrite seq_S, fmap_app, foldr_app. cbn [fmap list_fmap foldr Nat.add].
  assert (Hacc : ∀ (l : list Z) (a : Z),
            foldr Z.add a l = (foldr Z.add 0 l + a)%Z).
  { induction l as [|x l IHl]; intros a; cbn [foldr]; [lia|].
    rewrite IHl. lia. }
  rewrite Hacc, IH. unfold backoff_delay.
  rewrite Nat2Z.inj_succ, Z.pow_succ_r by lia. lia.
Qed.

(** X22: from a state with no attempt counted, the delays scheduled over a
    sequence of events without an open add up to [1000 * (2^n - 1)]
    milliseconds for [n = min N 5] closes: the hook gives up after at most 31
    seconds of waiting. *)
Theorem total_backoff (st : State) (evs : list Event) :
  fresh st → no_open evs →
  foldr Z.add 0%Z (run st evs).2 =
    (1000 * (2 ^ Z.of_nat (Nat.min (count_closes evs) MAX_RECONNECT) - 1))%Z ∧
  (foldr Z.add 0%Z (run st evs).2 ≤ 31000)%Z.
Proof.
  intros (Hm & Ha & Hr) Hno.
  destruct (run_no_open evs st Hno Hm ltac:(congruence)
              ltac:(rewrite Hr; unfold MAX_RECONNECT; lia))
    as (_ & _ & _ & I4).
  rewrite Hr in I4. cbn [Nat.add] in I4. rewrite Nat.sub_0_r in I4.
  rewrite I4, sum_backoff. split; [done|].
  unfold MAX_RECONNECT.
  assert (2 ^ Z.of_nat (Nat.min (count_closes evs) 5) ≤ 2 ^ 5)%Z
    by (apply Z.pow_le_mono_r; lia).
  lia.
Qed.

Lemma run_mounted (st : State) (evs : list Event) :
  isMounted st = true → Unmount ∉ evs → isMounted (run st evs).1 = true.
Proof.
  revert st. induction evs as [|ev evs IH]; intros st Hm Hun; [done|].
  apply not_elem_of_cons in Hun as [Hne Hun]. cbn [run].
  assert (Hm' : isMounted (step st ev).1 = true).
  { destruct ev; try done; cbn [step fst];
      unfold onopen, onerror, onclose, ontimer; rewrite ?Hm; cbn [negb]; try done.
    by destruct (Nat.ltb _ _). }
  destruct (step st ev) as [st1 d]. cbn [fst] in Hm'.
  specialize (IH st1 Hm' Hun). by destruct (run st1 evs).
Qed.

(** X23: as long as the hook is mounted, the status shown is decided by
    the last event alone: connected after an open, error after an error,
    disconnected after a close, connecting after the retry timer; a message
    leaves it as it is. *)
Theorem status_follows_last_event (evs : list Event) :
  Unmount ∉ evs →
  status (run initial (evs ++ [Open])).1 = CONNECTED ∧
  status (run initial (evs ++ [Error])).1 = ERROR ∧
  status (run initial (evs ++ [Close])).1 = DISCONNECTED ∧
  status (run initial (evs ++ [TimerFired])).1 = CONNECTING ∧
  status (run initial (evs ++ [Message])).1 = status (run initial evs).1.
Proof.
  intros Hun. pose proof (run_mounted initial evs eq_refl Hun) as Hm.
  rewrite !run_app. cbn [fst run step].
  unfold onopen, onerror, onclose, ontimer. rewrite Hm. cbn [negb fst status].
  split_and!; try done. by destruct (Nat.ltb _ _).
Qed.

(** X24: a successful open restarts the backoff: whatever happened before,
    the first close after an open schedules the retry after 1000 ms and
    counts it as attempt 1. *)
Theorem backoff_restarts_after_open (evs : list Event) :
  Unmount ∉ evs →
  (run initial (evs ++ [Open; Close])).2 = (run initial evs).2 ++ [1000%Z] ∧
  attempts (run initial (evs ++ [Open; Close])).1 = 1.
Proof.
  intros Hun. pose proof (run_mounted initial evs eq_refl Hun) as Hm.
  rewrite !run_app. cbn [fst snd].
  destruct (run initial evs).1 as [s a r t m]. cbn in Hm. subst m. done.
Qed.

Lemma total_backoff_witness :
  foldr Z.add 0%Z (run initial (closes 6)).2 =
    (1000 * (2 ^ Z.of_nat (Nat.min (count_closes (closes 6)) MAX_RECONNECT) - 1))%Z ∧
  (foldr Z.add 0%Z (run initial (closes 6)).2 ≤ 31000)%Z.
Proof.
  apply (total_backoff initial (closes 6)).
  - vm_compute. auto.
  - unfold no_open. cbn [closes]. repeat constructor; discriminate.
Defined.

Lemma flaky_mounted : Unmount ∉ MoreSamples.flaky.
Proof.
  unfold MoreSamples.flaky. intros H.
  repeat (apply elem_of_cons in H as [H|H]; [discriminate H|]).
  by apply elem_of_nil in H.
Defined.

Lemma status_follows_last_event_witness :
  status (run initial (MoreSamples.flaky ++ [Open])).1 = CONNECTED ∧
  status (run initial (MoreSamples.flaky ++ [Error])).1 = ERROR ∧
  status (run initial (MoreSamples.flaky ++ [Close])).1 = DISCONNECTED ∧
  status (run initial (MoreSamples.flaky ++ [TimerFired])).1 = CONNECTING ∧
  status (run initial (MoreSamples.flaky ++ [Message])).1 =
    status (run initial MoreSamples.flaky).1.
Proof.
  apply (status_follows_last_event MoreSamples.flaky). exact flaky_mounted.
Defined.

Lemma backoff_restarts_after_open_witness :
  (run initial (MoreSamples.flaky ++ [Open; Close])).2 =
    (run initial MoreSamples.flaky).2 ++ [1000%Z] ∧
  attempts (run initial (MoreSamples.flaky ++ [Open; Close])).1 = 1.
Proof.
  apply (backoff_restarts_after_open MoreSamples.flaky). exact flaky_mounted.
Defined.

End ConnectionFacts.
